(** * calendar2workours: ICS to CSV conversion (main.py)

    A shallow embedding of [main.py] and of the parts of Python's
    [datetime], [csv] and of [icalendar] that it calls, followed by the
    properties of the conversion pipeline.

    Conventions.
    - Python exceptions are values of [exn]; a computation that may raise is
      a [result].
    - Python [int] is [Z]; a [str] is a [string].
    - A Python [float] is a finite binary64 number, represented by the
      rational it denotes ([Q]); every arithmetic operation rounds its exact
      result to the nearest binary64 number ([Float.round_binary64]). *)

From Stdlib Require Import ZArith QArith Qround Qabs Qpower Lia Lqa String Ascii List
  DecimalString.
From Stdlib Require DecimalZ DecimalPos.
From stdpp Require Import base option list strings gmap.
Import ListNotations.

Local Open Scope Z_scope.

(** ** Exceptions and results *)

Inductive exn : Type :=
  | TypeError
  | ValueError
  | ZeroDivisionError
  | OverflowError
  | OSError
  | CsvError.          (* [csv.Error] *)

Inductive result (A : Type) : Type :=
  | Return (a : A)
  | Raise (e : exn).

Arguments Return {A} a.
Arguments Raise {A} e.

#[global] Instance result_ret : MRet result := fun A a => Return a.

#[global] Instance result_bind : MBind result := fun A B k m =>
  match m with
  | Return a => k a
  | Raise e => Raise e
  end.

(** ** Text formatting helpers *)

Module Fmt.

(** [str(n)] for an [int]. *)
Definition str (n : Z) : string := NilZero.string_of_int (Z.to_int n).

Fixpoint zeros (k : nat) : string :=
  match k with
  | O => EmptyString
  | S k' => String "0"%char (zeros k')
  end.

(** ["%0wd" % n]: the decimal digits of [n], padded on the left with
    zeros to [w] characters; the sign, if any, comes first and counts. *)
Definition pad0 (w : nat) (n : Z) : string :=
  if n <? 0 then
    let ds := str (- n) in
    String.append "-" (String.append (zeros (w - 1 - String.length ds)) ds)
  else
    let ds := str n in
    String.append (zeros (w - String.length ds)) ds.

End Fmt.

(** ** The binary64 arithmetic that [main.py] relies on *)

Module Float.

Local Open Scope Q_scope.

(** A finite [float], by its exact value. *)
Definition float : Type := Q.

Definition pow2 (e : Z) : Q := 2 ^ e.

Definition Qltb (x y : Q) : bool := negb (Qle_bool y x).

(** The integer part, rounding towards zero. *)
Definition Qtrunc (q : Q) : Z :=
  if Qltb q 0 then Qceiling q else Qfloor q.

(** [floor (log2 q)] for [q > 0]. *)
Definition ilog2 (q : Q) : Z :=
  let d := (Z.log2 (Qnum q) - Z.log2 (Zpos (Qden q)))%Z in
  if Qle_bool (pow2 d) q then d else (d - 1)%Z.

(** Nearest integer, ties to even, of [q >= 0]. *)
Definition round_half_even (q : Q) : Z :=
  let f := Qfloor q in
  match Qcompare (q - inject_Z f) (1 # 2) with
  | Lt => f
  | Gt => (f + 1)%Z
  | Eq => if Z.even f then f else (f + 1)%Z
  end.

(** Round to nearest, ties to even, in binary64: 53 bits of precision,
    least exponent of the last place -1074.  A result beyond the largest
    finite number would be an infinity; no value of [main.py] gets there
    (a [timedelta] spans less than 2^47 seconds). *)
Definition round_binary64 (q : Q) : float :=
  if Qeq_bool q 0 then 0
  else
    let a := Qabs q in
    let e := Z.max (-1074) (ilog2 a - 52) in
    let m := round_half_even (a / pow2 e) in
    (if Qltb q 0 then - inject_Z m else inject_Z m) * pow2 e.

Definition fadd (x y : float) : float := round_binary64 (x + y).
Definition fsub (x y : float) : float := round_binary64 (x - y).
Definition fdiv (x y : float) : float := round_binary64 (x / y).

(** C's [fmod]: the result has the sign of [x] and is exact. *)
Definition fmod (x y : float) : float :=
  x - y * inject_Z (Qtrunc (x / y)).

(** [a / b] on two [int]s ([long_true_divide]): the quotient, correctly
    rounded. *)
Definition int_truediv (a b : Z) : result float :=
  if (b =? 0)%Z then Raise ZeroDivisionError
  else Return (round_binary64 (inject_Z a / inject_Z b)).

(** [float(n)] for an [int]. *)
Definition of_int (n : Z) : float := round_binary64 (inject_Z n).

(** [vx // wx] on floats ([float_floor_div] through [_float_div_mod] in
    floatobject.c; the remainder it also computes is dropped here). *)
Definition floordiv (vx wx : float) : result float :=
  if Qeq_bool wx 0 then Raise ZeroDivisionError
  else
    let rem := fmod vx wx in
    let div := fdiv (fsub vx rem) wx in
    let div :=
      if negb (Qeq_bool rem 0) && negb (Bool.eqb (Qltb wx 0) (Qltb rem 0))
      then fsub div 1 else div in
    if negb (Qeq_bool div 0) then
      let floordiv := inject_Z (Qfloor div) in
      if Qltb (1 # 2) (fsub div floordiv) then Return (fadd floordiv 1)
      else Return floordiv
    else Return 0.

(** [int(x)] for a finite float. *)
Definition to_int (x : float) : Z := Qtrunc x.

End Float.

(** ** Python's [datetime] module *)

Module Datetime.

(** [timedelta]: [-999999999 <= days <= 999999999],
    [0 <= seconds < 86400], [0 <= microseconds < 10^6]. *)
Record timedelta : Type := mkTimedelta {
  days : Z;
  seconds : Z;
  microseconds : Z
}.

(** [timedelta(days, seconds, microseconds)]: normalises, and refuses a
    span of more than 999999999 days. *)
Definition timedelta_new (d s us : Z) : result timedelta :=
  let s := s + us / 1000000 in
  let d := d + s / 86400 in
  if (-999999999 <=? d) && (d <=? 999999999)
  then Return {| days := d; seconds := s mod 86400;
                 microseconds := us mod 1000000 |}
  else Raise OverflowError.

Definition timedelta_add (a b : timedelta) : result timedelta :=
  timedelta_new (days a + days b) (seconds a + seconds b)
                (microseconds a + microseconds b).

Definition timedelta_sub (a b : timedelta) : result timedelta :=
  timedelta_new (days a - days b) (seconds a - seconds b)
                (microseconds a - microseconds b).

Definition timedelta_eqb (a b : timedelta) : bool :=
  (days a =? days b) && (seconds a =? seconds b)
  && (microseconds a =? microseconds b).

(** The whole span in microseconds (an [int]). *)
Definition to_microseconds (td : timedelta) : Z :=
  (days td * 86400 + seconds td) * 10 ^ 6 + microseconds td.

(** [td.total_seconds()]:
    [((days * 86400 + seconds) * 10**6 + microseconds) / 10**6]. *)
Definition total_seconds (td : timedelta) : result Float.float :=
  Float.int_truediv (to_microseconds td) (10 ^ 6).

(** The float that [total_seconds] returns: the span in seconds, rounded
    to the nearest binary64 number. *)
Definition seconds_of (td : timedelta) : Float.float :=
  Float.round_binary64 (inject_Z (to_microseconds td) / inject_Z (10 ^ 6)).

Record date : Type := mkDate {
  d_year : Z;
  d_month : Z;
  d_day : Z
}.

(** A time of day; [time()] of a datetime and [datetime.min.time()] carry
    no tzinfo.  ([fold] plays no part in what follows and is left out.) *)
Record time : Type := mkTime {
  t_hour : Z;
  t_minute : Z;
  t_second : Z;
  t_microsecond : Z
}.

(** A tzinfo object as a datetime sees it: [tz_id] is the identity of the
    object (Python's [is]), [tz_utcoffset] is what its [utcoffset] method
    returns for the datetime that carries it. *)
Record tzinfo : Type := mkTzinfo {
  tz_id : N;
  tz_utcoffset : option timedelta
}.

Record datetime : Type := mkDatetime {
  year : Z;
  month : Z;
  day : Z;
  hour : Z;
  minute : Z;
  second : Z;
  microsecond : Z;
  tz : option tzinfo
}.

(** [datetime.min.time()] *)
Definition min_time : time :=
  {| t_hour := 0; t_minute := 0; t_second := 0; t_microsecond := 0 |}.

(** [datetime.combine(d, t)] for a naive [t]. *)
Definition combine (d : date) (t : time) : datetime :=
  {| year := d_year d; month := d_month d; day := d_day d;
     hour := t_hour t; minute := t_minute t; second := t_second t;
     microsecond := t_microsecond t; tz := None |}.

(** [dt.time()] *)
Definition time_of (dt : datetime) : time :=
  {| t_hour := hour dt; t_minute := minute dt; t_second := second dt;
     t_microsecond := microsecond dt |}.

(** [dt.date()] *)
Definition date_of (dt : datetime) : date :=
  {| d_year := year dt; d_month := month dt; d_day := day dt |}.

(** [==] on two naive times. *)
Definition time_eqb (a b : time) : bool :=
  (t_hour a =? t_hour b) && (t_minute a =? t_minute b)
  && (t_second a =? t_second b) && (t_microsecond a =? t_microsecond b).

Definition is_leap (y : Z) : bool :=
  (y mod 4 =? 0) && (negb (y mod 100 =? 0) || (y mod 400 =? 0)).

Definition days_before_year (y : Z) : Z :=
  let y := y - 1 in
  y * 365 + y / 4 - y / 100 + y / 400.

Definition DAYS_IN_MONTH : list Z :=
  [31; 28; 31; 30; 31; 30; 31; 31; 30; 31; 30; 31].

Definition days_in_month (y m : Z) : Z :=
  if (m =? 2) && is_leap y then 29
  else nth (Z.to_nat (m - 1)) DAYS_IN_MONTH 0.

(** Days of the year before the first of month [m]. *)
Definition days_before_month (y m : Z) : Z :=
  fold_right Z.add 0 (firstn (Z.to_nat (m - 1)) DAYS_IN_MONTH)
  + (if (2 <? m) && is_leap y then 1 else 0).

(** Proleptic Gregorian ordinal; 0001-01-01 is day 1. *)
Definition ymd2ord (y m d : Z) : Z :=
  days_before_year y + days_before_month y m + d.

Definition toordinal (dt : datetime) : Z :=
  ymd2ord (year dt) (month dt) (day dt).

(** [dt.utcoffset()] *)
Definition utcoffset (dt : datetime) : option timedelta :=
  match tz dt with
  | None => None
  | Some z => tz_utcoffset z
  end.

(** [a._tzinfo is b._tzinfo] *)
Definition same_tzinfo (a b : datetime) : bool :=
  match tz a, tz b with
  | None, None => true
  | Some x, Some y => (tz_id x =? tz_id y)%N
  | _, _ => false
  end.

(** [self - other] on two datetimes ([datetime.__sub__]). *)
Definition sub (self other : datetime) : result timedelta :=
  let days1 := toordinal self in
  let days2 := toordinal other in
  let secs1 := second self + minute self * 60 + hour self * 3600 in
  let secs2 := second other + minute other * 60 + hour other * 3600 in
  base ← timedelta_new (days1 - days2) (secs1 - secs2)
                       (microsecond self - microsecond other);
  if same_tzinfo self other then Return base
  else
    match utcoffset self, utcoffset other with
    | None, None => Return base
    | Some myoff, Some otoff =>
        if timedelta_eqb myoff otoff then Return base
        else
          t ← timedelta_add base otoff;
          timedelta_sub t myoff
    | _, _ => Raise TypeError
    end.

(** [d.isoformat()]: ["%04d-%02d-%02d"]. *)
Definition isoformat (d : date) : string :=
  String.append (Fmt.pad0 4 (d_year d))
    (String.append "-"
       (String.append (Fmt.pad0 2 (d_month d))
          (String.append "-" (Fmt.pad0 2 (d_day d))))).

(** [t.strftime("%H:%M")] *)
Definition strftime_HM (t : time) : string :=
  String.append (Fmt.pad0 2 (t_hour t))
    (String.append ":" (Fmt.pad0 2 (t_minute t))).

(** What the constructors of [date], [datetime] and [timedelta] enforce. *)
Definition valid_ymd (y m d : Z) : Prop :=
  1 <= y <= 9999 /\ 1 <= m <= 12 /\ 1 <= d <= days_in_month y m.

Definition valid_date (d : date) : Prop :=
  valid_ymd (d_year d) (d_month d) (d_day d).

Definition valid_timedelta (td : timedelta) : Prop :=
  -999999999 <= days td <= 999999999
  /\ 0 <= seconds td < 86400 /\ 0 <= microseconds td < 1000000.

(** A utcoffset is strictly between -24 and +24 hours. *)
Definition valid_offset (td : timedelta) : Prop :=
  valid_timedelta td /\ Z.abs (to_microseconds td) < 86400 * 10 ^ 6.

Definition valid_datetime (dt : datetime) : Prop :=
  valid_ymd (year dt) (month dt) (day dt)
  /\ 0 <= hour dt < 24 /\ 0 <= minute dt < 60 /\ 0 <= second dt < 60
  /\ 0 <= microsecond dt < 1000000
  /\ match utcoffset dt with
     | None => True
     | Some off => valid_offset off
     end.

End Datetime.

(** ** The [icalendar] objects that [main.py] reads *)

Module Icalendar.

(** The [dt] attribute of a DTSTART or DTEND value: "icalendar may return
    date or datetime objects". *)
Inductive dt_value : Type :=
  | DtDate (d : Datetime.date)
  | DtDatetime (d : Datetime.datetime).

(** [vDDDTypes]: the value of a date-time property.  It defines neither
    [__bool__] nor [__len__], so it is always true in a condition. *)
Record vDDDTypes : Type := mkvDDDTypes { dt : dt_value }.

(** A component of the calendar tree with the properties [main.py] reads
    ([component.get(key)] is [None] when the property is absent); a VEVENT
    is a component named ["VEVENT"]. *)
#[warnings="-register-all"] Inductive Component : Type := mkComponent {
  name : string;
  DTSTART : option vDDDTypes;
  DTEND : option vDDDTypes;
  SUMMARY : option string;
  subcomponents : list Component
}.

(** [Component._walk(name)]: the component itself if its name matches,
    then the matches of each subcomponent, in order. *)
Fixpoint _walk (nm : string) (c : Component) : list Component :=
  (if String.eqb (name c) nm then [c] else [])
  ++ flat_map (_walk nm) (subcomponents c).

Definition walk (c : Component) (nm : string) : list Component :=
  _walk nm c.

End Icalendar.

(** ** main.py *)

Import Datetime Icalendar.

(** The row tuple [(date_str, start_str, end_str, summary, duration)]. *)
Record Row : Type := mkRow {
  r_date : string;
  r_start : string;
  r_end : string;
  r_summary : string;
  r_duration : Z
}.

(** [isinstance(v.dt, datetime)] and the two branches that follow it. *)
Definition normalize (v : vDDDTypes) : datetime :=
  match dt v with
  | DtDatetime d => d
  | DtDate d => combine d min_time
  end.

(** [int((end_dt - start_dt).total_seconds() // 60)] *)
Definition duration_minutes (start_dt end_dt : datetime) : result Z :=
  delta ← Datetime.sub end_dt start_dt;
  secs ← total_seconds delta;
  q ← Float.floordiv secs (Float.of_int 60);
  mret (Float.to_int q).

Definition event_to_row (event : Component) : result (option Row) :=
  match DTSTART event, DTEND event with
  | Some dtstart, Some dtend =>
      let start_dt := normalize dtstart in
      let end_dt := normalize dtend in
      if time_eqb (time_of start_dt) min_time
         && time_eqb (time_of end_dt) min_time
      then Return None
      else
        let date_str := isoformat (date_of start_dt) in
        let start_str := strftime_HM (time_of start_dt) in
        let end_str := strftime_HM (time_of end_dt) in
        let summary := default EmptyString (SUMMARY event) in
        duration ← duration_minutes start_dt end_dt;
        mret (Some (mkRow date_str start_str end_str summary duration))
  | _, _ => Return None
  end.

(** The loop of [parse_events], with [rows] the list built so far. *)
Fixpoint parse_events_loop (components : list Component) (rows : list Row)
  : result (list Row) :=
  match components with
  | [] => Return rows
  | component :: rest =>
      row ← event_to_row component;
      match row with
      | Some r => parse_events_loop rest (rows ++ [r])
      | None => parse_events_loop rest rows
      end
  end.

Definition parse_events (cal : Component) : result (list Row) :=
  parse_events_loop (walk cal "VEVENT") [].

(** ** Python's [csv] module, 'excel' dialect

    [delimiter=','], [quotechar] the double quote, [doublequote=True], no
    [escapechar], [skipinitialspace=False], [lineterminator='\r\n'],
    [quoting=QUOTE_MINIMAL], [strict=False]. *)

Module Csv.

Local Open Scope char_scope.

Definition delimiter : ascii := ",".
Definition quotechar : ascii := "034".
Definition CR : ascii := "013".
Definition LF : ascii := "010".
Definition lineterminator : string := String CR (String LF EmptyString).

(** A value handed to the writer: a [str] is written as it is, anything
    else through [str()]. *)
Inductive cell : Type :=
  | CStr (s : string)
  | CInt (n : Z).

Definition cell_text (c : cell) : string :=
  match c with
  | CStr s => s
  | CInt n => Fmt.str n
  end.

(** *** Writer ([join_append_data], [Writer.writerow] in _csv.c) *)

Fixpoint in_string (c : ascii) (s : string) : bool :=
  match s with
  | EmptyString => false
  | String c' s' => Ascii.eqb c c' || in_string c s'
  end.

(** The characters that make QUOTE_MINIMAL quote a field. *)
Definition special (c : ascii) : bool :=
  Ascii.eqb c delimiter || Ascii.eqb c quotechar
  || in_string c lineterminator.

(** First pass over the field: does it have to be quoted? *)
Fixpoint field_quoted (field : string) : bool :=
  match field with
  | EmptyString => false
  | String c s' => special c || field_quoted s'
  end.

(** The copy of the field data: a quote character is doubled. *)
Fixpoint field_data (field : string) : string :=
  match field with
  | EmptyString => EmptyString
  | String c s' =>
      if Ascii.eqb c quotechar then String quotechar (String c (field_data s'))
      else String c (field_data s')
  end.

(** [join_append]: add one field to the record [rec] that already holds
    [num_fields] fields. *)
Definition join_append (rec : string) (num_fields : nat) (field : string)
  (quoted : bool) : string :=
  let rec := if (0 <? num_fields)%nat then rec +:+ String delimiter EmptyString
             else rec in
  if quoted || field_quoted field
  then rec +:+ String quotechar (field_data field +:+ String quotechar EmptyString)
  else rec +:+ field_data field.

Fixpoint join_fields (rec : string) (num_fields : nat) (fields : list string)
  : string * nat :=
  match fields with
  | [] => (rec, num_fields)
  | f :: fs => join_fields (join_append rec num_fields f false) (S num_fields) fs
  end.

(** [writer.writerow(row)]: the text handed to the file's [write].  A row
    of one empty field is written as an empty quoted field. *)
Definition writerow_text (row : list cell) : string :=
  let '(rec, num_fields) := join_fields EmptyString O (map cell_text row) in
  let rec :=
    if (0 <? num_fields)%nat && (String.length rec =? 0)%nat
    then join_append EmptyString O EmptyString true
    else rec in
  rec +:+ lineterminator.

(** *** Reader ([parse_process_char], [Reader_iternext] in _csv.c)

    [main.py] never reads the file back; the reader is here as the inverse
    against which the written text is judged.  It is the state machine of
    [csv.reader] for the same dialect, over a file opened with [newline=''];
    the guard [csv.field_size_limit] (131072 characters by default), which
    is no part of the format, is left out. *)

Inductive ParserState : Type :=
  | START_RECORD
  | START_FIELD
  | IN_FIELD
  | IN_QUOTED_FIELD
  | QUOTE_IN_QUOTED_FIELD
  | EAT_CRNL.

Record Reader : Type := mkReader {
  state : ParserState;
  fields : list string;
  field : string
}.

Definition parse_reset : Reader :=
  {| state := START_RECORD; fields := []; field := EmptyString |}.

Definition parse_add_char (r : Reader) (c : ascii) (st : ParserState) : Reader :=
  {| state := st; fields := fields r;
     field := field r +:+ String c EmptyString |}.

Definition parse_save_field (r : Reader) (st : ParserState) : Reader :=
  {| state := st; fields := fields r ++ [field r]; field := EmptyString |}.

Definition set_state (r : Reader) (st : ParserState) : Reader :=
  {| state := st; fields := fields r; field := field r |}.

Definition is_newline (c : ascii) : bool := Ascii.eqb c LF || Ascii.eqb c CR.

(** One step of the state machine; [None] is the end-of-line mark that
    the reader feeds after the last character of each line. *)
Definition parse_process_char (r : Reader) (c : option ascii) : result Reader :=
  let start_field (r : Reader) : result Reader :=
    match c with
    | None => Return (parse_save_field r START_RECORD)
    | Some ch =>
        if is_newline ch then Return (parse_save_field r EAT_CRNL)
        else if Ascii.eqb ch quotechar then Return (set_state r IN_QUOTED_FIELD)
        else if Ascii.eqb ch delimiter then Return (parse_save_field r START_FIELD)
        else Return (parse_add_char r ch IN_FIELD)
    end in
  match state r with
  | START_RECORD =>
      match c with
      | None => Return r
      | Some ch =>
          if is_newline ch then Return (set_state r EAT_CRNL)
          else start_field r
      end
  | START_FIELD => start_field r
  | IN_FIELD =>
      match c with
      | None => Return (parse_save_field r START_RECORD)
      | Some ch =>
          if is_newline ch then Return (parse_save_field r EAT_CRNL)
          else if Ascii.eqb ch delimiter then Return (parse_save_field r START_FIELD)
          else Return (parse_add_char r ch IN_FIELD)
      end
  | IN_QUOTED_FIELD =>
      match c with
      | None => Return r
      | Some ch =>
          if Ascii.eqb ch quotechar then Return (set_state r QUOTE_IN_QUOTED_FIELD)
          else Return (parse_add_char r ch IN_QUOTED_FIELD)
      end
  | QUOTE_IN_QUOTED_FIELD =>
      match c with
      | None => Return (parse_save_field r START_RECORD)
      | Some ch =>
          if Ascii.eqb ch quotechar then Return (parse_add_char r ch IN_QUOTED_FIELD)
          else if Ascii.eqb ch delimiter then Return (parse_save_field r START_FIELD)
          else if is_newline ch then Return (parse_save_field r EAT_CRNL)
          else Return (parse_add_char r ch IN_FIELD)
      end
  | EAT_CRNL =>
      match c with
      | None => Return (set_state r START_RECORD)
      | Some ch => if is_newline ch then Return r else Raise CsvError
      end
  end.

(** Does the line that the file object hands out end after [c]?  With
    [newline=''] a line ends after a line feed, after a carriage return
    that no line feed follows, and at the end of the data. *)
Definition end_of_line (c : ascii) (rest : string) : bool :=
  Ascii.eqb c LF
  || (Ascii.eqb c CR
      && match rest with
         | String c' _ => negb (Ascii.eqb c' LF)
         | EmptyString => true
         end)
  || match rest with EmptyString => true | _ => false end.

Definition is_start_record (st : ParserState) : bool :=
  match st with START_RECORD => true | _ => false end.

Definition is_in_quoted_field (st : ParserState) : bool :=
  match st with IN_QUOTED_FIELD => true | _ => false end.

(** All the records of [csv.reader(f)] for a file with the text [data]:
    each character of each line goes through the state machine, then the
    end-of-line mark; a record is complete when the machine is back in
    START_RECORD.  [records] holds the records returned so far. *)
Fixpoint reader_loop (r : Reader) (data : string) (records : list (list string))
  : result (list (list string)) :=
  match data with
  | EmptyString =>
      if (negb (String.length (field r) =? 0)%nat) || is_in_quoted_field (state r)
      then Return (records ++ [fields (parse_save_field r START_RECORD)])
      else Return records
  | String c rest =>
      r1 ← parse_process_char r (Some c);
      if end_of_line c rest then
        r2 ← parse_process_char r1 None;
        if is_start_record (state r2)
        then reader_loop parse_reset rest (records ++ [fields r2])
        else reader_loop r2 rest records
      else reader_loop r1 rest records
  end.

Definition reader (data : string) : result (list (list string)) :=
  reader_loop parse_reset data [].

End Csv.

(** ** Files and the console *)

Record World : Type := mkWorld {
  files : gmap string string;      (* the text of each existing file *)
  can_write : string -> bool;      (* may this path be opened for writing? *)
  stdout : list string             (* the lines printed so far *)
}.

(** [open(path, "r").read()] *)
Definition read_text (path : string) (w : World) : result string :=
  match files w !! path with
  | Some text => Return text
  | None => Raise OSError
  end.

(** [open(path, "w")]: creates the file or truncates it. *)
Definition open_w (path : string) (w : World) : result World :=
  if can_write w path
  then Return {| files := <[path := EmptyString]> (files w);
                 can_write := can_write w; stdout := stdout w |}
  else Raise OSError.

(** [f.write(text)] on the file opened at [path]. *)
Definition file_write (path : string) (text : string) (w : World) : World :=
  {| files := alter (fun old => old +:+ text) path (files w);
     can_write := can_write w; stdout := stdout w |}.

Definition print (line : string) (w : World) : World :=
  {| files := files w; can_write := can_write w;
     stdout := stdout w ++ [line] |}.

Definition header : list Csv.cell :=
  [Csv.CStr "Date"; Csv.CStr "Start"; Csv.CStr "End"; Csv.CStr "Summary";
   Csv.CStr "Duration(min)"].

Definition row_cells (r : Row) : list Csv.cell :=
  [Csv.CStr (r_date r); Csv.CStr (r_start r); Csv.CStr (r_end r);
   Csv.CStr (r_summary r); Csv.CInt (r_duration r)].

Definition writerow (path : string) (row : list Csv.cell) (w : World) : World :=
  file_write path (Csv.writerow_text row) w.

Definition writerows (path : string) (rows : list (list Csv.cell)) (w : World)
  : World :=
  fold_left (fun w row => writerow path row w) rows w.

Definition write_csv (rows : list Row) (out_path : string) (w : World)
  : result World :=
  w ← open_w out_path w;
  let w := writerow out_path header w in
  mret (writerows out_path (map row_cells rows) w).

Record Args : Type := mkArgs {
  ics_file : string;
  output : option string           (* [-o] / [--output], when given *)
}.

Definition default_output : string := "working_hours.csv".

Section Main.

(** [Calendar.from_ical]: the parser of the icalendar package. *)
Variable from_ical : string -> result Component.

Definition load_calendar (ics_path : string) (w : World) : result Component :=
  text ← read_text ics_path w;
  from_ical text.

(** [main]: [Return w'] is a normal exit in the world [w']; [Raise] is an
    uncaught exception, which ends the process with a traceback and a
    non-zero status. *)
Definition main (args : Args) (w : World) : result World :=
  let out := default default_output (output args) in
  cal ← load_calendar (ics_file args) w;
  rows ← parse_events cal;
  match rows with
  | [] => mret (print ("Warning: No events found in " +:+ ics_file args) w)
  | _ =>
      w ← write_csv rows out w;
      mret (print ("Converted " +:+ Fmt.str (Z.of_nat (length rows))
                   +:+ " events to " +:+ out) w)
  end.

End Main.

(** ** Vocabulary of the specification *)

(** What Python's constructors guarantee of the value of a property. *)
Definition valid_value (v : vDDDTypes) : Prop :=
  match dt v with
  | DtDate d => valid_date d
  | DtDatetime d => valid_datetime d
  end.

Definition valid_event (event : Component) : Prop :=
  (forall v, DTSTART event = Some v -> valid_value v)
  /\ (forall v, DTEND event = Some v -> valid_value v).

(** "A midnight time-of-day". *)
Definition is_midnight (d : datetime) : Prop :=
  hour d = 0 /\ minute d = 0 /\ second d = 0 /\ microsecond d = 0.

(** A datetime is naive when it has no utcoffset, aware otherwise. *)
Definition naive (d : datetime) : bool :=
  match utcoffset d with
  | None => true
  | Some _ => false
  end.

(** One datetime is naive, the other aware (and so they do not share a
    tzinfo object). *)
Definition mixes_naive_and_aware (a b : datetime) : bool :=
  negb (same_tzinfo a b) && xorb (naive a) (naive b).

(** The entry is read past the two filters: both values are present and
    they are not both at midnight. *)
Definition passes_filters (event : Component) : bool :=
  match DTSTART event, DTEND event with
  | Some s, Some e =>
      negb (time_eqb (time_of (normalize s)) min_time
            && time_eqb (time_of (normalize e)) min_time)
  | _, _ => false
  end.

(** The entry passes the filters and its subtraction mixes a naive and an
    aware datetime. *)
Definition mixed_entry (event : Component) : bool :=
  match DTSTART event, DTEND event with
  | Some s, Some e =>
      passes_filters event && mixes_naive_and_aware (normalize e) (normalize s)
  | _, _ => false
  end.

(** Does the entry yield a row? *)
Definition yields_row (event : Component) : bool :=
  match event_to_row event with
  | Return (Some _) => true
  | _ => false
  end.

(** Zero-padded decimal fields, digit by digit. *)
Definition digit (n : Z) : ascii := ascii_of_nat (48 + Z.to_nat n).

Definition two_digits (n : Z) : string :=
  String (digit (n / 10)) (String (digit (n mod 10)) EmptyString).

Definition four_digits (n : Z) : string :=
  String (digit (n / 1000))
    (String (digit (n / 100 mod 10)) (two_digits (n mod 100))).

(** ISO 8601 calendar date, [YYYY-MM-DD]. *)
Definition iso_date (y m d : Z) : string :=
  four_digits y +:+ "-" +:+ two_digits m +:+ "-" +:+ two_digits d.

(** 24-hour [HH:MM]. *)
Definition hh_mm (h mi : Z) : string :=
  two_digits h +:+ ":" +:+ two_digits mi.

(** The text of one field in a record, and of the fields that follow the
    first one, each after a delimiter. *)
Definition field_text (f : string) : string :=
  Csv.join_append EmptyString 0 f false.

Fixpoint more_fields (fs : list string) : string :=
  match fs with
  | [] => EmptyString
  | g :: gs => String Csv.delimiter (field_text g +:+ more_fields gs)
  end.

(** The reader stands at the end of the field [f], which it began to read
    in state [st0]. *)
Definition at_field_end (st0 : Csv.ParserState) (f : string) (r : Csv.Reader)
  : Prop :=
  Csv.field r = f
  /\ (Csv.state r = Csv.IN_FIELD \/ Csv.state r = Csv.QUOTE_IN_QUOTED_FIELD
      \/ (Csv.state r = st0 /\ f = EmptyString)).

(** The text of the file that [write_csv] leaves behind. *)
Definition csv_text (rows : list Row) : string :=
  Csv.writerow_text header
  +:+ fold_right (fun r acc => Csv.writerow_text (row_cells r) +:+ acc)
        EmptyString rows.

(** One row of the file, written out: the five fields, each as the writer
    renders it, separated by commas and ended by the line terminator. *)
Definition row_line (r : Row) : string :=
  field_text (r_date r) +:+ "," +:+ field_text (r_start r) +:+ ","
  +:+ field_text (r_end r) +:+ "," +:+ field_text (r_summary r) +:+ ","
  +:+ field_text (Fmt.str (r_duration r)) +:+ Csv.lineterminator.

Definition header_line : string :=
  "Date,Start,End,Summary,Duration(min)" +:+ Csv.lineterminator.

(** The world [w] in which the file at [path] holds [text]. *)
Definition with_file (path text : string) (w : World) : World :=
  {| files := <[path := text]> (files w); can_write := can_write w;
     stdout := stdout w |}.

(** The fields of a row as a reader of the file gets them back. *)
Definition row_fields (r : Row) : list string :=
  map Csv.cell_text (row_cells r).

Definition header_fields : list string := map Csv.cell_text header.

(** ** Sample entries *)

Definition naive_dt (y m d h mi s us : Z) : vDDDTypes :=
  mkvDDDTypes (DtDatetime (mkDatetime y m d h mi s us None)).

Definition utc : tzinfo :=
  {| tz_id := 1; tz_utcoffset := Some (mkTimedelta 0 0 0) |}.

Definition utc_dt (y m d h mi s us : Z) : vDDDTypes :=
  mkvDDDTypes (DtDatetime (mkDatetime y m d h mi s us (Some utc))).

Definition vevent (s e : option vDDDTypes) (summary : option string) : Component :=
  mkComponent "VEVENT" s e summary [].

Definition vcalendar (events : list Component) : Component :=
  mkComponent "VCALENDAR" None None None events.

(** 09:00 to 17:30 on 2024-01-01, "Work". *)
Definition work_day : Component :=
  vevent (Some (naive_dt 2024 1 1 9 0 0 0)) (Some (naive_dt 2024 1 1 17 30 0 0))
         (Some "Work").

(** 09:00:00 to 09:59:30: 59.5 minutes. *)
Definition short_hour : Component :=
  vevent (Some (naive_dt 2024 1 1 9 0 0 0)) (Some (naive_dt 2024 1 1 9 59 30 0))
         None.

(** The end precedes the start. *)
Definition backwards : Component :=
  vevent (Some (naive_dt 2024 1 1 17 30 0 0)) (Some (naive_dt 2024 1 1 9 0 0 0))
         (Some "Work").

(** DTSTART:20240101T090000 (floating) and DTEND:20240101T173000Z (UTC). *)
Definition floating_to_utc : Component :=
  vevent (Some (naive_dt 2024 1 1 9 0 0 0)) (Some (utc_dt 2024 1 1 17 30 0 0))
         (Some "Work").

(** Two all-day dates. *)
Definition holiday : Component :=
  vevent (Some (mkvDDDTypes (DtDate (mkDate 2024 1 1))))
         (Some (mkvDDDTypes (DtDate (mkDate 2024 1 2)))) (Some "Holiday").

(** No DTEND. *)
Definition open_ended : Component :=
  vevent (Some (naive_dt 2024 1 1 9 0 0 0)) None (Some "Open").

Definition standup : Row :=
  {| r_date := "2024-01-01"; r_start := "09:00"; r_end := "09:15";
     r_summary := "Standup, daily"; r_duration := 15 |}.

Definition empty_world : World :=
  {| files := ∅; can_write := fun _ => true; stdout := [] |}.

(** A fixed zone one hour east of UTC. *)
Definition cet : tzinfo :=
  {| tz_id := 2; tz_utcoffset := Some (mkTimedelta 0 3600 0) |}.

(** 09:00 at UTC+1 to 09:30 UTC: 30 minutes on the clock faces, 90 minutes
    apart. *)
Definition across_zones : Component :=
  vevent (Some (mkvDDDTypes (DtDatetime (mkDatetime 2024 1 1 9 0 0 0 (Some cet)))))
         (Some (utc_dt 2024 1 1 9 30 0 0)) (Some "Call").

(** A date-only start with a timed end. *)
Definition from_date_to_time : Component :=
  vevent (Some (mkvDDDTypes (DtDate (mkDate 2024 1 1))))
         (Some (naive_dt 2024 1 1 8 30 0 0)) (Some "Night").

(** The end is one second before the start. *)
Definition one_second_back : Component :=
  vevent (Some (naive_dt 2024 1 1 9 0 1 0)) (Some (naive_dt 2024 1 1 9 0 0 0)) None.

(** A task and an event with an alarm inside. *)
Definition todo : Component :=
  mkComponent "VTODO" (Some (naive_dt 2024 1 1 9 0 0 0))
    (Some (naive_dt 2024 1 1 10 0 0 0)) (Some "Task") [].

Definition with_alarm : Component :=
  mkComponent "VEVENT" (Some (naive_dt 2024 1 2 9 0 0 0))
    (Some (naive_dt 2024 1 2 9 30 0 0)) (Some "Review")
    [mkComponent "VALARM" None None None []].

(** A world with the calendar file only, and the same with every path
    closed to writing. *)
Definition sample_world : World :=
  with_file "in.ics" "BEGIN:VCALENDAR" empty_world.

Definition locked_world : World :=
  {| files := files sample_world; can_write := fun _ => false; stdout := [] |}.

(** ** Calendar order and wall-clock time *)

(** The wall-clock reading of a datetime, tzinfo set aside, in microseconds
    since the start of day 0. *)
Definition wall_microseconds (d : datetime) : Z :=
  ((toordinal d * 86400 + (second d + minute d * 60 + hour d * 3600)) * 10 ^ 6)
  + microsecond d.

Fixpoint lex_compare (xs ys : list Z) : comparison :=
  match xs, ys with
  | x :: xs', y :: ys' =>
      match x ?= y with
      | Eq => lex_compare xs' ys'
      | c => c
      end
  | _, _ => Eq
  end.

Definition wall_fields (d : datetime) : list Z :=
  [year d; month d; day d; hour d; minute d; second d; microsecond d].

(** [a] reads strictly earlier than [b]: year first, then month, day, hour,
    minute, second, microsecond. *)
Definition earlier (a b : datetime) : bool :=
  match lex_compare (wall_fields a) (wall_fields b) with
  | Lt => true
  | _ => false
  end.

(** The length in days of year [y]. *)
Definition days_in_year (y : Z) : Z := if is_leap y then 366 else 365.



(** * Properties *)

(** ** Binary64 rounding and floor division *)

Module FloatFacts.
Import Float.
Local Open Scope Q_scope.

Lemma pow2_pos e : 0 < pow2 e.
Proof. apply Qpower_0_lt. reflexivity. Qed.

Lemma pow2_add a b : pow2 (a + b) == pow2 a * pow2 b.
Proof. apply Qpower_plus. discriminate. Qed.

Lemma pow2_Z e : (0 <= e)%Z -> pow2 e == inject_Z (2 ^ e).
Proof. intros H. unfold pow2. rewrite Zpower_Qpower by assumption. reflexivity. Qed.

Lemma pow2_le a b : (a <= b)%Z -> pow2 a <= pow2 b.
Proof. intros H. apply Qpower_le_compat_l; [assumption | discriminate]. Qed.

Lemma pow2_lt_inv a b : pow2 a < pow2 b -> (a < b)%Z.
Proof. intros H. apply (Qpower_lt_compat_l_inv 2); [assumption | reflexivity]. Qed.

Lemma Qdiv_le_mono x y a b :
  0 < y -> 0 < b -> x <= a -> 0 <= a -> b <= y -> x / y <= a / b.
Proof.
  intros Hy Hb Hxa Ha Hby.
  apply Qle_shift_div_r; [assumption |].
  apply Qle_trans with a; [assumption |].
  apply Qle_trans with (a / b * b).
  - unfold Qdiv. rewrite <- Qmult_assoc, (Qmult_comm (/ b)), Qmult_inv_r, Qmult_1_r;
      [apply Qle_refl | lra].
  - assert (0 <= a / b) by (apply Qle_shift_div_l; lra).
    nra.
Qed.

Lemma Qdiv_lt_mono x y a b :
  0 < y -> 0 < b -> x < a -> 0 <= x -> b <= y -> x / y < a / b.
Proof.
  intros Hy Hb Hxa Hx Hby.
  apply Qlt_shift_div_r; [assumption |].
  assert (E : a == a / b * b) by (field; lra).
  assert (0 < a / b) by (apply Qlt_shift_div_l; lra).
  nra.
Qed.

Lemma Zlog2_Q n :
  (0 < n)%Z -> pow2 (Z.log2 n) <= inject_Z n /\ inject_Z n < pow2 (Z.log2 n + 1).
Proof.
  intros H. destruct (Z.log2_spec n H) as [Hl Hu].
  pose proof (Z.log2_nonneg n).
  rewrite !pow2_Z by lia. rewrite <- Zle_Qle, <- Zlt_Qlt.
  replace (Z.log2 n + 1)%Z with (Z.succ (Z.log2 n)) by lia. auto.
Qed.

Lemma ilog2_spec q : 0 < q -> pow2 (ilog2 q) <= q /\ q < pow2 (ilog2 q + 1).
Proof.
  intros Hq. destruct q as [n d].
  assert (Hn : (0 < n)%Z) by (unfold Qlt in Hq; simpl in Hq; lia).
  destruct (Zlog2_Q n Hn) as [Hnl Hnu].
  destruct (Zlog2_Q (Zpos d) eq_refl) as [Hdl Hdu].
  assert (Hd : 0 < inject_Z (Zpos d)) by reflexivity.
  assert (Hn' : 0 < inject_Z n) by (rewrite Zlt_Qlt in Hn; exact Hn).
  pose proof (Qmake_Qdiv n d) as E.
  unfold ilog2. cbn [Qnum Qden].
  set (ln := Z.log2 n) in *. set (ld := Z.log2 (Zpos d)) in *.
  destruct (Qle_bool (pow2 (ln - ld)) (n # d)) eqn:Hb.
  - split; [apply Qle_bool_iff; exact Hb |].
    rewrite E. replace (ln - ld + 1)%Z with ((ln + 1) - ld)%Z by lia.
    pose proof (pow2_pos ld).
    unfold pow2 in *. rewrite Qpower_minus by discriminate.
    apply Qdiv_lt_mono; auto; lra.
  - split.
    + rewrite E. replace (ln - ld - 1)%Z with (ln - (ld + 1))%Z by lia.
      pose proof (pow2_pos ln). pose proof (pow2_pos (ld + 1)).
      unfold pow2 in *. rewrite Qpower_minus by discriminate.
      apply Qdiv_le_mono; auto; lra.
    + replace (ln - ld - 1 + 1)%Z with (ln - ld)%Z by lia.
      apply Qnot_le_lt. intros Hle. apply Qle_bool_iff in Hle. congruence.
Qed.

Lemma ilog2_unique q L :
  0 < q -> pow2 L <= q -> q < pow2 (L + 1) -> ilog2 q = L.
Proof.
  intros Hq Hl Hu. destruct (ilog2_spec q Hq) as [Hl' Hu'].
  assert (ilog2 q < L + 1)%Z by (apply pow2_lt_inv; lra).
  assert (L < ilog2 q + 1)%Z by (apply pow2_lt_inv; lra).
  lia.
Qed.

Lemma Qltb_iff x y : Qltb x y = true <-> x < y.
Proof.
  unfold Qltb. rewrite Bool.negb_true_iff. split.
  - intros H. apply Qnot_le_lt. intros Hle. apply Qle_bool_iff in Hle. congruence.
  - intros H. destruct (Qle_bool y x) eqn:E; [| reflexivity].
    apply Qle_bool_iff in E. lra.
Qed.

Lemma Qltb_false_iff x y : Qltb x y = false <-> y <= x.
Proof.
  unfold Qltb. rewrite Bool.negb_false_iff. apply Qle_bool_iff.
Qed.

Lemma round_half_even_int q M : q == inject_Z M -> round_half_even q = M.
Proof.
  intros E. unfold round_half_even.
  rewrite (Qfloor_comp _ _ E), Qfloor_Z. cbv zeta.
  destruct (Qcompare_spec (q - inject_Z M) (1 # 2)); [lra | reflexivity | lra].
Qed.

Lemma round_half_even_bounds q :
  0 <= q ->
  (0 <= round_half_even q)%Z /\ inject_Z (round_half_even q) <= 2 * q
  /\ inject_Z (Qfloor q) <= inject_Z (round_half_even q).
Proof.
  intros Hq. unfold round_half_even.
  pose proof (Qfloor_le q) as Hl. pose proof (Qlt_floor q) as Hu.
  assert (Hf : (0 <= Qfloor q)%Z).
  { rewrite <- (Qfloor_Z 0). apply Qfloor_resp_le. exact Hq. }
  rewrite inject_Z_plus in Hu. change (inject_Z 1) with 1 in Hu.
  assert (Hf' : 0 <= inject_Z (Qfloor q)) by (rewrite Zle_Qle in Hf; exact Hf).
  destruct (Qcompare_spec (q - inject_Z (Qfloor q)) (1 # 2)) as [E | L | G].
  - destruct (Z.even (Qfloor q)) eqn:Ev.
    + repeat split; try lia; lra.
    + assert (Qfloor q <> 0)%Z by (intros Z0; rewrite Z0 in Ev; discriminate).
      assert (1 <= Qfloor q)%Z by lia.
      assert (1 <= inject_Z (Qfloor q)) by (rewrite Zle_Qle in *; assumption).
      rewrite inject_Z_plus. change (inject_Z 1) with 1.
      repeat split; try lia; lra.
  - repeat split; try lia; lra.
  - rewrite inject_Z_plus. change (inject_Z 1) with 1.
    repeat split; try lia; lra.
Qed.

Lemma round_int q k :
  q == inject_Z k -> (Z.abs k < 2 ^ 53)%Z -> round_binary64 q == inject_Z k.
Proof.
  intros E Hk. unfold round_binary64.
  destruct (Qeq_bool q 0) eqn:Hz.
  - apply Qeq_bool_eq in Hz. lra.
  - apply Qeq_bool_neq in Hz.
    assert (Hk0 : k <> 0%Z) by (intros ->; apply Hz; exact E).
    assert (Ha : Qabs q == inject_Z (Z.abs k)).
    { rewrite (Qabs_wd _ _ E). unfold Qabs, inject_Z. reflexivity. }
    assert (Hapos : (0 < Z.abs k)%Z) by lia.
    destruct (Zlog2_Q _ Hapos) as [Hl Hu].
    assert (HL : ilog2 (Qabs q) = Z.log2 (Z.abs k)).
    { apply ilog2_unique; rewrite ?Ha; auto.
      rewrite Zlt_Qlt in Hapos. exact Hapos. }
    rewrite HL.
    assert (HLb : (0 <= Z.log2 (Z.abs k) < 53)%Z).
    { split; [apply Z.log2_nonneg |]. apply Z.log2_lt_pow2; lia. }
    set (L := Z.log2 (Z.abs k)) in *.
    rewrite Z.max_r by lia.
    set (e := (L - 52)%Z).
    assert (Hp : pow2 e * inject_Z (2 ^ (- e)) == 1).
    { rewrite <- pow2_Z by lia. rewrite <- pow2_add.
      replace (e + - e)%Z with 0%Z by lia. reflexivity. }
    pose proof (pow2_pos e) as Hpe.
    assert (Hm : Qabs q / pow2 e == inject_Z (Z.abs k * 2 ^ (- e))).
    { assert (Hinv : / pow2 e == inject_Z (2 ^ (- e))).
      { unfold pow2. rewrite <- Qpower_opp. apply pow2_Z. lia. }
      unfold Qdiv. rewrite Hinv, Ha, inject_Z_mult. reflexivity. }
    rewrite (round_half_even_int _ _ Hm).
    rewrite inject_Z_mult.
    destruct (Qltb q 0) eqn:Hs.
    + apply Qltb_iff in Hs.
      assert (k < 0)%Z by (rewrite Zlt_Qlt; change (inject_Z 0) with 0; lra).
      rewrite Z.abs_neq by lia. rewrite inject_Z_opp.
      transitivity (inject_Z k * (pow2 e * inject_Z (2 ^ (- e)))); [ring |].
      rewrite Hp. ring.
    + apply Qltb_false_iff in Hs.
      assert (0 <= k)%Z by (rewrite Zle_Qle; change (inject_Z 0) with 0; lra).
      rewrite Z.abs_eq by lia.
      transitivity (inject_Z k * (pow2 e * inject_Z (2 ^ (- e)))); [ring |].
      rewrite Hp. ring.
Qed.

Lemma round_abs_le q : Qabs (round_binary64 q) <= 2 * Qabs q.
Proof.
  unfold round_binary64. pose proof (Qabs_nonneg q) as Ha.
  destruct (Qeq_bool q 0); [change (Qabs 0) with 0; lra |].
  set (e := Z.max (-1074) (ilog2 (Qabs q) - 52)).
  pose proof (pow2_pos e) as Hp.
  assert (Hx : 0 <= Qabs q / pow2 e) by (apply Qle_shift_div_l; lra).
  destruct (round_half_even_bounds _ Hx) as (Hm0 & Hm2 & _).
  set (m := round_half_even (Qabs q / pow2 e)) in *.
  assert (Hm0' : 0 <= inject_Z m) by (rewrite Zle_Qle in Hm0; exact Hm0).
  assert (Hle : inject_Z m * pow2 e <= 2 * Qabs q).
  { apply Qle_trans with (2 * (Qabs q / pow2 e) * pow2 e).
    - apply Qmult_le_compat_r; lra.
    - apply Qle_lteq. right. field. lra. }
  destruct (Qltb q 0); rewrite Qabs_Qmult, (Qabs_pos (pow2 e)) by lra.
  - rewrite Qabs_opp, Qabs_pos by lra. exact Hle.
  - rewrite Qabs_pos by lra. exact Hle.
Qed.

Lemma round_nonneg q : 0 <= q -> 0 <= round_binary64 q.
Proof.
  intros Hq. unfold round_binary64.
  destruct (Qeq_bool q 0); [lra |].
  set (e := Z.max (-1074) (ilog2 (Qabs q) - 52)).
  pose proof (pow2_pos e) as Hp. pose proof (Qabs_nonneg q) as Ha.
  assert (Hx : 0 <= Qabs q / pow2 e) by (apply Qle_shift_div_l; lra).
  destruct (round_half_even_bounds _ Hx) as (Hm0 & _ & _).
  rewrite Zle_Qle in Hm0. change (inject_Z 0) with 0 in Hm0.
  destruct (Qltb q 0) eqn:Hs; [apply Qltb_iff in Hs; lra |].
  apply Qmult_le_0_compat; lra.
Qed.

Lemma round_neg q : q < 0 -> pow2 (-1074) <= - q -> round_binary64 q < 0.
Proof.
  intros Hq Hmin. unfold round_binary64.
  destruct (Qeq_bool q 0) eqn:Hz; [apply Qeq_bool_eq in Hz; lra |].
  assert (Ha : Qabs q == - q) by (apply Qabs_neg; lra).
  assert (Hapos : 0 < Qabs q) by lra.
  destruct (ilog2_spec _ Hapos) as [Hl _].
  set (L := ilog2 (Qabs q)) in *.
  set (e := Z.max (-1074) (L - 52)).
  pose proof (pow2_pos e) as Hp.
  assert (He : pow2 e <= Qabs q).
  { unfold e. destruct (Z.max_spec (-1074) (L - 52)) as [[_ ->] | [_ ->]].
    - apply Qle_trans with (pow2 L); [apply pow2_le; lia | exact Hl].
    - lra. }
  assert (Hx : 1 <= Qabs q / pow2 e) by (apply Qle_shift_div_l; lra).
  assert (Hx0 : 0 <= Qabs q / pow2 e) by lra.
  destruct (round_half_even_bounds _ Hx0) as (_ & _ & Hf).
  assert (H1 : (1 <= Qfloor (Qabs q / pow2 e))%Z).
  { rewrite <- (Qfloor_Z 1). apply Qfloor_resp_le. exact Hx. }
  rewrite Zle_Qle in H1. change (inject_Z 1) with 1 in H1.
  set (m := round_half_even (Qabs q / pow2 e)) in *.
  assert (Hs : Qltb q 0 = true) by (apply Qltb_iff; exact Hq).
  rewrite Hs.
  assert (0 < inject_Z m * pow2 e) by (apply Qmult_lt_0_compat; lra).
  lra.
Qed.

Lemma Qfloor_unique x n :
  inject_Z n <= x -> x < inject_Z n + 1 -> Qfloor x = n.
Proof.
  intros Hl Hu.
  pose proof (Qfloor_resp_le _ _ Hl) as H1. rewrite Qfloor_Z in H1.
  pose proof (Qfloor_le x) as H2.
  assert (H3 : inject_Z (Qfloor x) < inject_Z (n + 1)).
  { rewrite inject_Z_plus. change (inject_Z 1) with 1. lra. }
  rewrite <- Zlt_Qlt in H3. lia.
Qed.

Lemma Qtrunc_int q k : q == inject_Z k -> Qtrunc q = k.
Proof.
  intros E. unfold Qtrunc.
  destruct (Qltb q 0).
  - rewrite (Qceiling_comp _ _ E). apply Qceiling_Z.
  - rewrite (Qfloor_comp _ _ E). apply Qfloor_Z.
Qed.

(** [Qtrunc x] lies between 0 and [x]. *)
Lemma Qtrunc_spec x :
  (0 <= x /\ Qtrunc x = Qfloor x)
  \/ (x < 0 /\ x <= inject_Z (Qtrunc x) /\ inject_Z (Qtrunc x) < x + 1
      /\ inject_Z (Qtrunc x) <= 0).
Proof.
  unfold Qtrunc. destruct (Qltb x 0) eqn:Hs.
  - apply Qltb_iff in Hs. right.
    pose proof (Qle_ceiling x). pose proof (Qceiling_lt x) as Hc.
    unfold Z.sub in Hc. rewrite inject_Z_plus in Hc.
    rewrite inject_Z_opp in Hc. change (inject_Z 1) with 1 in Hc.
    assert (Qceiling x <= 0)%Z.
    { rewrite <- (Qceiling_Z 0). apply Qceiling_resp_le.
      change (inject_Z 0) with 0. lra. }
    assert (inject_Z (Qceiling x) <= 0).
    { change 0 with (inject_Z 0). rewrite <- Zle_Qle. assumption. }
    repeat split; try assumption; lra.
  - apply Qltb_false_iff in Hs. left. auto.
Qed.

(** The floor division of floats is exact on the values that occur here:
    every intermediate result is an integer below 2^53. *)
Lemma floordiv_exact vx wx w :
  wx == inject_Z w -> (0 < w)%Z -> Qabs vx < inject_Z (2 ^ 52) ->
  exists r, floordiv vx wx = Return r /\ r == inject_Z (Qfloor (vx / wx)).
Proof.
  intros Ew Hw Hb.
  assert (Hw1 : 1 <= wx).
  { rewrite Ew. change 1 with (inject_Z 1). rewrite <- Zle_Qle. lia. }
  apply Qabs_Qlt_condition in Hb. destruct Hb as [Hb1 Hb2].
  set (B := inject_Z (2 ^ 52)) in *.
  unfold floordiv.
  destruct (Qeq_bool wx 0) eqn:Hz; [apply Qeq_bool_eq in Hz; lra |]. clear Hz.
  cbv zeta. unfold fmod.
  set (x := vx / wx).
  assert (Hx : vx == x * wx) by (unfold x; field; lra).
  set (t := Qtrunc x).
  (* t lies between 0 and x, and w * t between 0 and vx *)
  assert (Ht : (0 <= x /\ 0 <= inject_Z t /\ inject_Z t <= x /\ t = Qfloor x)
               \/ (x < 0 /\ x <= inject_Z t /\ inject_Z t <= 0
                   /\ inject_Z t < x + 1)).
  { destruct (Qtrunc_spec x) as [[H0 Hf] | (H0 & H1 & H2 & H3)].
    - left. fold t in Hf. rewrite Hf. repeat split; auto using Qfloor_le.
      change 0 with (inject_Z 0). rewrite <- Zle_Qle.
      rewrite <- (Qfloor_Z 0). apply Qfloor_resp_le. exact H0.
    - right. fold t in H1, H2, H3. auto. }
  assert (Hwt : - B < inject_Z (w * t) /\ inject_Z (w * t) < B
                /\ - B < inject_Z t /\ inject_Z t < B).
  { rewrite inject_Z_mult, <- Ew.
    destruct Ht as [(H0 & H1 & H2 & _) | (H0 & H1 & H2 & _)].
    - assert (wx * inject_Z t <= vx) by nra.
      assert (0 <= wx * inject_Z t) by nra.
      assert (0 < B) by reflexivity. repeat split; nra.
    - assert (vx <= wx * inject_Z t) by nra.
      assert (wx * inject_Z t <= 0) by nra.
      assert (0 < B) by reflexivity. repeat split; nra. }
  destruct Hwt as (Hwt1 & Hwt2 & Ht1 & Ht2).
  unfold B in Hwt1, Hwt2, Ht1, Ht2.
  rewrite <- inject_Z_opp, <- Zlt_Qlt in Hwt1, Ht1. rewrite <- Zlt_Qlt in Hwt2, Ht2.
  assert (E1 : vx - (vx - wx * inject_Z t) == inject_Z (w * t)).
  { rewrite inject_Z_mult, <- Ew. ring. }
  assert (R1 : fsub vx (vx - wx * inject_Z t) == inject_Z (w * t)).
  { apply round_int; [exact E1 | lia]. }
  set (s1 := fsub vx (vx - wx * inject_Z t)) in *.
  assert (E2 : s1 / wx == inject_Z t).
  { rewrite R1, inject_Z_mult, <- Ew. field. lra. }
  assert (R2 : fdiv s1 wx == inject_Z t).
  { apply round_int; [exact E2 | lia]. }
  set (d := fdiv s1 wx) in *.
  assert (Hs : Qltb wx 0 = false) by (apply Qltb_false_iff; lra).
  rewrite Hs.
  set (rem := vx - wx * inject_Z t).
  set (cond := negb (Qeq_bool rem 0) && negb (Bool.eqb false (Qltb rem 0))).
  set (d' := if cond then fsub d 1 else d).
  assert (Hk : exists k, d' == inject_Z k /\ k = Qfloor x).
  { unfold d'. destruct (Qltb rem 0) eqn:Hr.
    - (* negative remainder: one less than the truncated quotient *)
      assert (Hc : cond = true).
      { unfold cond. apply Qltb_iff in Hr.
        destruct (Qeq_bool rem 0) eqn:Hq; [| reflexivity].
        apply Qeq_bool_eq in Hq. lra. }
      apply Qltb_iff in Hr. unfold rem in Hr.
      rewrite Hc. exists (t - 1)%Z. split.
      + apply round_int; [| lia].
        rewrite R2. unfold Z.sub. rewrite inject_Z_plus, inject_Z_opp. reflexivity.
      + symmetry. apply Qfloor_unique;
          unfold Z.sub; rewrite inject_Z_plus, inject_Z_opp;
          change (inject_Z 1) with 1.
        * destruct Ht as [(H0 & H1 & H2 & _) | (H0 & H1 & H2 & H3)]; [nra | lra].
        * assert (x < inject_Z t) by nra. lra.
    - assert (Hc : cond = false).
      { unfold cond. apply Bool.andb_false_r. }
      apply Qltb_false_iff in Hr. unfold rem in Hr.
      rewrite Hc. exists t. split; [exact R2 |].
      destruct Ht as [(_ & _ & _ & Hf) | (H0 & H1 & H2 & H3)]; [exact Hf |].
      symmetry. apply Qfloor_unique; [| lra].
      assert (inject_Z t <= x) by nra. lra. }
  destruct Hk as (k & Ed & Hk).
  clearbody d'. fold x. rewrite <- Hk.
  destruct (Qeq_bool d' 0) eqn:Hd0; cbn [negb].
  - exists 0. split; [reflexivity |].
    transitivity d'; [symmetry; apply Qeq_bool_eq; exact Hd0 | exact Ed].
  - rewrite (Qfloor_comp d' _ Ed), Qfloor_Z.
    assert (R3 : fsub d' (inject_Z k) == inject_Z 0).
    { apply round_int; [| reflexivity]. rewrite Ed. change (inject_Z 0) with 0. ring. }
    assert (Hc : Qltb (1 # 2) (fsub d' (inject_Z k)) = false).
    { apply Qltb_false_iff. rewrite R3. discriminate. }
    rewrite Hc. exists (inject_Z k). split; reflexivity.
Qed.

Lemma round_half_even_error x :
  0 <= x -> Qabs (inject_Z (round_half_even x) - x) <= 1 # 2.
Proof.
  intros Hx. unfold round_half_even.
  pose proof (Qfloor_le x) as Hl. pose proof (Qlt_floor x) as Hu.
  rewrite inject_Z_plus in Hu. change (inject_Z 1) with 1 in Hu.
  apply Qabs_Qle_condition.
  destruct (Qcompare_spec (x - inject_Z (Qfloor x)) (1 # 2)) as [E | L | G].
  - destruct (Z.even (Qfloor x));
      rewrite ?inject_Z_plus; change (inject_Z 1) with 1; split; lra.
  - split; lra.
  - rewrite inject_Z_plus. change (inject_Z 1) with 1. split; lra.
Qed.

(** Below 2^34 the rounding error is at most 2^-20. *)
Lemma round_error q :
  Qabs q < pow2 34 -> Qabs (round_binary64 q - q) <= pow2 (-20).
Proof.
  intros Hb. unfold round_binary64.
  destruct (Qeq_bool q 0) eqn:Hz.
  - apply Qeq_bool_eq in Hz.
    assert (E : 0 - q == 0) by lra. rewrite (Qabs_wd _ _ E). discriminate.
  - apply Qeq_bool_neq in Hz.
    assert (Hapos : 0 < Qabs q).
    { pose proof (Qabs_nonneg q). destruct (Qlt_le_dec 0 (Qabs q)) as [H1 | H1]; [exact H1 |].
      exfalso. apply Hz. apply Qabs_Qle_condition in H1. lra. }
    destruct (ilog2_spec _ Hapos) as [Hl _].
    set (L := ilog2 (Qabs q)) in *.
    assert (HL : (L < 34)%Z) by (apply pow2_lt_inv; lra).
    set (e := Z.max (-1074) (L - 52)).
    assert (He : (e <= -19)%Z) by (unfold e; lia).
    pose proof (pow2_pos e) as Hp. pose proof (pow2_le e (-19) He) as Hp19.
    assert (Hx : 0 <= Qabs q / pow2 e) by (apply Qle_shift_div_l; lra).
    pose proof (round_half_even_error _ Hx) as Herr.
    set (m := round_half_even (Qabs q / pow2 e)) in *.
    apply Qabs_Qle_condition in Herr. destruct Herr as [Herr1 Herr2].
    assert (Ea : Qabs q == Qabs q / pow2 e * pow2 e) by (field; lra).
    assert (H20 : pow2 (-19) * (1 # 2) == pow2 (-20)) by reflexivity.
    assert (Hd : - pow2 (-20) <= inject_Z m * pow2 e - Qabs q
                 /\ inject_Z m * pow2 e - Qabs q <= pow2 (-20)).
    { set (x := Qabs q / pow2 e) in *. set (a := Qabs q) in *.
      set (p := pow2 e) in *. set (p19 := pow2 (-19)) in *.
      set (p20 := pow2 (-20)) in *.
      clearbody p p19 p20 x m a. split; nra. }
    apply Qabs_Qle_condition.
    destruct (Qltb q 0) eqn:Hs.
    + apply Qltb_iff in Hs.
      assert (Eq : Qabs q == - q) by (apply Qabs_neg; lra).
      rewrite Eq in Hd. split; lra.
    + apply Qltb_false_iff in Hs.
      assert (Eq : Qabs q == q) by (apply Qabs_pos; lra).
      rewrite Eq in Hd. split; lra.
Qed.

End FloatFacts.

(** ** Spans of time *)

Module DatetimeFacts.
Import Float FloatFacts.

Lemma timedelta_new_spec d s us td :
  timedelta_new d s us = Return td ->
  valid_timedelta td /\ to_microseconds td = (d * 86400 + s) * 10 ^ 6 + us.
Proof.
  unfold timedelta_new, valid_timedelta, to_microseconds.
  destruct (_ && _) eqn:Hr; [| discriminate].
  intros [= <-]. cbn [days seconds microseconds].
  apply andb_prop in Hr. destruct Hr as [H1 H2].
  apply Z.leb_le in H1, H2.
  change (10 ^ 6) with 1000000.
  pose proof (Z.mod_pos_bound (s + us / 1000000) 86400 eq_refl).
  pose proof (Z.mod_pos_bound us 1000000 eq_refl).
  pose proof (Z.div_mod (s + us / 1000000) 86400 ltac:(lia)).
  pose proof (Z.div_mod us 1000000 ltac:(lia)).
  repeat split; lia.
Qed.

Lemma timedelta_new_total d s us :
  -999999999 <= d + (s + us / 1000000) / 86400 <= 999999999 ->
  exists td, timedelta_new d s us = Return td.
Proof.
  intros H. unfold timedelta_new.
  destruct (_ && _) eqn:Hr; [eauto |].
  apply Bool.andb_false_iff in Hr. destruct Hr as [Hr | Hr];
    apply Z.leb_gt in Hr; lia.
Qed.

Lemma sub_valid a b td : Datetime.sub a b = Return td -> valid_timedelta td.
Proof.
  unfold Datetime.sub.
  destruct (timedelta_new _ _ _) as [base |] eqn:Hb; [| discriminate].
  cbn. apply timedelta_new_spec in Hb. destruct Hb as [Hb _].
  destruct (same_tzinfo a b); [intros [= <-]; exact Hb |].
  destruct (utcoffset a) as [myoff |], (utcoffset b) as [otoff |];
    try discriminate; try (intros [= <-]; exact Hb).
  destruct (timedelta_eqb myoff otoff); [intros [= <-]; exact Hb |].
  destruct (timedelta_add base otoff) as [t |]; [| discriminate].
  cbn. unfold timedelta_sub. intros H. apply timedelta_new_spec in H. tauto.
Qed.

Lemma valid_timedelta_bound td :
  valid_timedelta td -> Z.abs (to_microseconds td) < 2 ^ 47 * 10 ^ 6.
Proof.
  unfold valid_timedelta, to_microseconds. intros (Hd & Hs & Hu).
  change (10 ^ 6) with 1000000. change (2 ^ 47) with 140737488355328. lia.
Qed.

Local Open Scope Q_scope.

Lemma Qabs_ratio_lt n M :
  (Z.abs n < M * 10 ^ 6)%Z ->
  Qabs (inject_Z n / inject_Z (10 ^ 6)) < inject_Z M.
Proof.
  intros H. apply Qabs_Qlt_condition.
  assert (Hp : 0 < inject_Z (10 ^ 6)) by reflexivity.
  assert (H1 : inject_Z n < inject_Z M * inject_Z (10 ^ 6)).
  { rewrite <- inject_Z_mult, <- Zlt_Qlt. lia. }
  assert (H2 : - inject_Z M * inject_Z (10 ^ 6) < inject_Z n).
  { rewrite <- inject_Z_opp, <- inject_Z_mult, <- Zlt_Qlt. lia. }
  split.
  - apply Qlt_shift_div_l; [exact Hp | exact H2].
  - apply Qlt_shift_div_r; [exact Hp | exact H1].
Qed.

Lemma total_seconds_eq td : total_seconds td = Return (seconds_of td).
Proof. reflexivity. Qed.

Lemma seconds_of_bound td :
  valid_timedelta td -> Qabs (seconds_of td) < inject_Z (2 ^ 52).
Proof.
  intros Hv. apply valid_timedelta_bound in Hv.
  apply Qabs_ratio_lt in Hv.
  pose proof (round_abs_le (inject_Z (to_microseconds td) / inject_Z (10 ^ 6))).
  unfold seconds_of.
  assert (2 * inject_Z (2 ^ 47) < inject_Z (2 ^ 52)) by reflexivity.
  lra.
Qed.

Lemma of_int_60 : of_int 60 == inject_Z 60.
Proof. apply round_int; [reflexivity | reflexivity]. Qed.

End DatetimeFacts.

(** ** Formatting *)

Module FmtFacts.

Lemma pad0_two_digits n : 0 <= n <= 99 -> Fmt.pad0 2 n = two_digits n.
Proof.
  intros H.
  assert (Hall : forallb (fun k => String.eqb (Fmt.pad0 2 k) (two_digits k))
                   (seqZ 0 100) = true) by (vm_compute; reflexivity).
  rewrite forallb_forall in Hall.
  apply String.eqb_eq, Hall, list_elem_of_In, elem_of_seqZ. lia.
Qed.

Lemma pad0_four_digits n : 0 <= n <= 9999 -> Fmt.pad0 4 n = four_digits n.
Proof.
  intros H.
  assert (Hall : forallb (fun k => String.eqb (Fmt.pad0 4 k) (four_digits k))
                   (seqZ 0 10000) = true) by (vm_compute; reflexivity).
  rewrite forallb_forall in Hall.
  apply String.eqb_eq, Hall, list_elem_of_In, elem_of_seqZ. lia.
Qed.

Lemma days_in_month_le y m : 1 <= m <= 12 -> 28 <= days_in_month y m <= 31.
Proof.
  intros H. unfold days_in_month.
  assert (m = 1 \/ m = 2 \/ m = 3 \/ m = 4 \/ m = 5 \/ m = 6 \/ m = 7
          \/ m = 8 \/ m = 9 \/ m = 10 \/ m = 11 \/ m = 12) as Hm by lia.
  destruct (is_leap y);
    decompose [or] Hm; subst m; vm_compute; split; discriminate.
Qed.

Lemma isoformat_valid d :
  valid_date d -> isoformat d = iso_date (d_year d) (d_month d) (d_day d).
Proof.
  intros (Hy & Hm & Hd). pose proof (days_in_month_le (d_year d) _ Hm).
  unfold isoformat, iso_date.
  rewrite pad0_four_digits, !pad0_two_digits by lia. reflexivity.
Qed.

Lemma strftime_HM_valid t :
  0 <= t_hour t < 24 -> 0 <= t_minute t < 60 ->
  strftime_HM t = hh_mm (t_hour t) (t_minute t).
Proof.
  intros Hh Hm. unfold strftime_HM, hh_mm.
  rewrite !pad0_two_digits by lia. reflexivity.
Qed.

End FmtFacts.

(** ** Durations *)

Module DurationFacts.
Import Float FloatFacts DatetimeFacts.

Lemma duration_minutes_floor s e delta :
  Datetime.sub e s = Return delta ->
  duration_minutes s e = Return (Qfloor (seconds_of delta / inject_Z 60)).
Proof.
  intros Hsub. unfold duration_minutes. rewrite Hsub.
  unfold mbind, result_bind, mret, result_ret.
  change (total_seconds delta) with (Return (seconds_of delta)). cbv beta iota.
  pose proof (sub_valid _ _ _ Hsub) as Hv.
  destruct (floordiv_exact (seconds_of delta) (of_int 60) 60 of_int_60
              eq_refl (seconds_of_bound _ Hv)) as (r & Hr & Er).
  rewrite Hr. f_equal.
  unfold to_int. rewrite (Qtrunc_int _ _ Er).
  apply Qfloor_comp. rewrite of_int_60. reflexivity.
Qed.

(** On a span of whole seconds the float arithmetic is exact. *)
Lemma seconds_of_whole td :
  valid_timedelta td -> microseconds td = 0 ->
  (seconds_of td == inject_Z (days td * 86400 + seconds td))%Q.
Proof.
  intros Hv Hus. pose proof (valid_timedelta_bound _ Hv) as Hb.
  unfold seconds_of. unfold to_microseconds in *. rewrite Hus in *.
  rewrite Z.add_0_r in *.
  apply round_int.
  - rewrite inject_Z_mult. field. discriminate.
  - change (2 ^ 47) with 140737488355328 in Hb. change (10 ^ 6) with 1000000 in Hb.
    change (2 ^ 53) with 9007199254740992. lia.
Qed.

Lemma duration_minutes_whole s e delta :
  Datetime.sub e s = Return delta -> microseconds delta = 0 ->
  duration_minutes s e = Return ((days delta * 86400 + seconds delta) / 60).
Proof.
  intros Hsub Hus. rewrite (duration_minutes_floor _ _ _ Hsub). f_equal.
  rewrite Zdiv_Qdiv. apply Qfloor_comp.
  rewrite (seconds_of_whole _ (sub_valid _ _ _ Hsub) Hus). reflexivity.
Qed.

Lemma seconds_of_sign td :
  (0 <= to_microseconds td -> (0 <= seconds_of td)%Q)
  /\ (to_microseconds td < 0 -> (seconds_of td < 0)%Q).
Proof.
  unfold seconds_of. set (n := to_microseconds td).
  assert (Hp : (0 < inject_Z (10 ^ 6))%Q) by reflexivity.
  split; intros H.
  - apply round_nonneg. apply Qle_shift_div_l; [exact Hp |].
    rewrite Qmult_0_l. change 0%Q with (inject_Z 0). rewrite <- Zle_Qle. exact H.
  - assert (Hn : (inject_Z n <= -1)%Q).
    { change (-1)%Q with (inject_Z (-1)). rewrite <- Zle_Qle. lia. }
    apply round_neg.
    + apply Qlt_shift_div_r; [exact Hp |]. lra.
    + apply Qle_trans with (pow2 (-20)); [apply pow2_le; lia |].
      apply Qle_trans with (1 / inject_Z (10 ^ 6))%Q; [discriminate |].
      assert (E : (- (inject_Z n / inject_Z (10 ^ 6))
                   == (- inject_Z n) * / inject_Z (10 ^ 6))%Q)
        by (unfold Qdiv; ring).
      rewrite E. unfold Qdiv. apply Qmult_le_compat_r; [lra | discriminate].
Qed.

Lemma duration_minutes_sign s e delta n :
  Datetime.sub e s = Return delta -> duration_minutes s e = Return n ->
  (0 <= n <-> 0 <= to_microseconds delta).
Proof.
  intros Hsub Hd. rewrite (duration_minutes_floor _ _ _ Hsub) in Hd.
  set (x := (seconds_of delta / inject_Z 60)%Q) in *.
  assert (Hn : n = Qfloor x) by congruence. clear Hd. subst n.
  destruct (seconds_of_sign delta) as [Hpos Hneg].
  assert (H60 : (0 < inject_Z 60)%Q) by reflexivity.
  split; intros H.
  - destruct (Z.lt_ge_cases (to_microseconds delta) 0) as [Hlt | Hge]; [| exact Hge].
    specialize (Hneg Hlt).
    assert (x < 0)%Q.
    { unfold x. apply Qlt_shift_div_r; [exact H60 |]. lra. }
    pose proof (Qfloor_le x) as Hfl.
    rewrite Zle_Qle in H. change (inject_Z 0) with 0%Q in H. exfalso. lra.
  - specialize (Hpos H).
    rewrite <- (Qfloor_Z 0). apply Qfloor_resp_le.
    change (inject_Z 0) with 0%Q. unfold x. apply Qle_shift_div_l; [exact H60 |]. lra.
Qed.

(** Up to 2^53 microseconds (some 285 years) the rounding of
    [total_seconds] never carries the span across a whole minute. *)
Lemma seconds_floor_exact td :
  Z.abs (to_microseconds td) < 2 ^ 53 ->
  Qfloor (seconds_of td / inject_Z 60) = to_microseconds td / (60 * 10 ^ 6).
Proof.
  intros Hb. set (n := to_microseconds td) in *.
  set (k := n / (60 * 10 ^ 6)).
  assert (Hk : 60000000 * k <= n < 60000000 * k + 60000000).
  { subst k. change (60 * 10 ^ 6) with 60000000. Z.div_mod_to_equations. lia. }
  unfold seconds_of. fold n.
  set (q := (inject_Z n / inject_Z (10 ^ 6))%Q).
  assert (Hq : (q * inject_Z (10 ^ 6) == inject_Z n)%Q) by (unfold q; field; discriminate).
  change (inject_Z (10 ^ 6)) with (1000000%Q) in Hq.
  assert (Hqb : (Qabs q < pow2 34)%Q).
  { change (pow2 34) with (2 ^ 34)%Q. rewrite <- (Zpower_Qpower 2 34) by lia.
    apply Qabs_ratio_lt. change (2 ^ 53) with 9007199254740992 in Hb.
    change (2 ^ 34 * 10 ^ 6) with 17179869184000000. lia. }
  pose proof (round_error q Hqb) as Herr.
  apply Qabs_Qle_condition in Herr. destruct Herr as [He1 He2].
  assert (Hp : (pow2 (-20) < 1 # 1000000)%Q) by reflexivity.
  set (p20 := pow2 (-20)) in *. clearbody p20.
  destruct Hk as [Hk1 Hk2].
  apply Qfloor_unique.
  - destruct (Z.eq_dec n (60000000 * k)) as [E | NE].
    + assert (Eq : (q == inject_Z (60 * k))%Q).
      { rewrite inject_Z_mult. change (inject_Z 60) with 60%Q.
        rewrite E, inject_Z_mult in Hq. change (inject_Z 60000000) with 60000000%Q in Hq.
        lra. }
      assert (Hr : (round_binary64 q == inject_Z (60 * k))%Q).
      { apply round_int; [exact Eq |].
        change (2 ^ 53) with 9007199254740992 in *. lia. }
      rewrite Hr, inject_Z_mult. apply Qle_shift_div_l; [reflexivity |].
      rewrite Qmult_comm. apply Qle_refl.
    + assert (Hn : (inject_Z (60000000 * k + 1) <= inject_Z n)%Q)
        by (rewrite <- Zle_Qle; lia).
      rewrite inject_Z_plus, inject_Z_mult in Hn.
      change (inject_Z 60000000) with 60000000%Q in Hn.
      change (inject_Z 1) with 1%Q in Hn.
      apply Qle_shift_div_l; [reflexivity |]. change (inject_Z 60) with 60%Q.
      set (r := round_binary64 q) in *. set (K := inject_Z k) in *.
      clearbody r K. lra.
  - assert (Hn : (inject_Z n <= inject_Z (60000000 * k + 59999999))%Q)
      by (rewrite <- Zle_Qle; lia).
    rewrite inject_Z_plus, inject_Z_mult in Hn.
    change (inject_Z 60000000) with 60000000%Q in Hn.
    change (inject_Z 59999999) with 59999999%Q in Hn.
    apply Qlt_shift_div_r; [reflexivity |]. change (inject_Z 60) with 60%Q.
    set (r := round_binary64 q) in *. set (K := inject_Z k) in *.
    clearbody r K. lra.
Qed.

Lemma duration_minutes_exact s e delta :
  Datetime.sub e s = Return delta ->
  Z.abs (to_microseconds delta) < 2 ^ 53 ->
  duration_minutes s e = Return (to_microseconds delta / (60 * 10 ^ 6)).
Proof.
  intros Hsub Hb. rewrite (duration_minutes_floor _ _ _ Hsub).
  rewrite (seconds_floor_exact _ Hb). reflexivity.
Qed.

End DurationFacts.

(** ** Ordinals and the subtraction of datetimes *)

Module SubFacts.
Import DatetimeFacts.

Lemma days_before_year_bounds y :
  1 <= y <= 9999 -> 0 <= days_before_year y <= 3651694.
Proof. intros H. unfold days_before_year. Z.div_mod_to_equations. lia. Qed.

Lemma days_before_month_bounds y m :
  1 <= m <= 12 -> 0 <= days_before_month y m <= 335.
Proof.
  intros H. unfold days_before_month.
  assert (m = 1 \/ m = 2 \/ m = 3 \/ m = 4 \/ m = 5 \/ m = 6 \/ m = 7
          \/ m = 8 \/ m = 9 \/ m = 10 \/ m = 11 \/ m = 12) as Hm by lia.
  destruct (is_leap y);
    decompose [or] Hm; subst m; vm_compute; split; discriminate.
Qed.

Lemma ymd2ord_bounds y m d :
  valid_ymd y m d -> 1 <= ymd2ord y m d <= 3652060.
Proof.
  intros (Hy & Hm & Hd). unfold ymd2ord.
  pose proof (days_before_year_bounds y Hy).
  pose proof (days_before_month_bounds y m Hm).
  pose proof (FmtFacts.days_in_month_le y m Hm). lia.
Qed.

Lemma valid_offset_days off : valid_offset off -> -1 <= days off <= 0.
Proof.
  unfold valid_offset, valid_timedelta, to_microseconds.
  change (10 ^ 6) with 1000000. lia.
Qed.

Lemma base_total a b :
  valid_datetime a -> valid_datetime b ->
  exists base,
    timedelta_new (toordinal a - toordinal b)
      (second a + minute a * 60 + hour a * 3600
       - (second b + minute b * 60 + hour b * 3600))
      (microsecond a - microsecond b) = Return base
    /\ -3652061 <= days base <= 3652061.
Proof.
  intros (Hda & Hha & Hma & Hsa & Hua & _) (Hdb & Hhb & Hmb & Hsb & Hub & _).
  apply ymd2ord_bounds in Hda, Hdb. fold (toordinal a) in Hda. fold (toordinal b) in Hdb.
  set (d := toordinal a - toordinal b).
  set (s := second a + minute a * 60 + hour a * 3600
            - (second b + minute b * 60 + hour b * 3600)).
  set (us := microsecond a - microsecond b).
  assert (Hq : -3652061 <= d + (s + us / 1000000) / 86400 <= 3652061).
  { subst d s us. Z.div_mod_to_equations. lia. }
  destruct (timedelta_new_total d s us) as [base Hb]; [lia |].
  exists base. split; [exact Hb |].
  unfold timedelta_new in Hb. destruct (_ && _); [| discriminate].
  injection Hb as <-. cbn [days]. exact Hq.
Qed.

Lemma add_sub_offsets_total base myoff otoff :
  valid_timedelta base -> -3652061 <= days base <= 3652061 ->
  valid_offset myoff -> valid_offset otoff ->
  exists t td, timedelta_add base otoff = Return t
               /\ timedelta_sub t myoff = Return td.
Proof.
  intros (_ & Hbs & Hbu) Hbd Hmy Hot.
  pose proof (valid_offset_days _ Hmy). pose proof (valid_offset_days _ Hot).
  destruct Hmy as [(_ & Hms & Hmu) _]. destruct Hot as [(_ & Hos & Hou) _].
  unfold timedelta_add.
  destruct (timedelta_new_total (days base + days otoff)
              (seconds base + seconds otoff)
              (microseconds base + microseconds otoff)) as [t Ht].
  { Z.div_mod_to_equations. lia. }
  exists t. pose proof Ht as Ht'. apply timedelta_new_spec in Ht'.
  destruct Ht' as [(_ & Hts & Htu) _].
  assert (Htd : -3652063 <= days t <= 3652063).
  { unfold timedelta_new in Ht. destruct (_ && _); [| discriminate].
    injection Ht as <-. cbn [days]. Z.div_mod_to_equations. lia. }
  unfold timedelta_sub.
  destruct (timedelta_new_total (days t - days myoff)
              (seconds t - seconds myoff)
              (microseconds t - microseconds myoff)) as [td Htd'].
  { Z.div_mod_to_equations. lia. }
  exists td. split; [exact Ht | exact Htd'].
Qed.

(** The subtraction is defined unless it mixes a naive and an aware
    datetime. *)
Lemma sub_total a b :
  valid_datetime a -> valid_datetime b ->
  mixes_naive_and_aware a b = false ->
  exists td, Datetime.sub a b = Return td.
Proof.
  intros Ha Hb Hmix.
  destruct (base_total a b Ha Hb) as (base & Hbase & Hdays).
  unfold Datetime.sub. rewrite Hbase.
  unfold mbind, result_bind. unfold mixes_naive_and_aware, naive in Hmix.
  destruct (same_tzinfo a b); [eauto |].
  destruct Ha as (_ & _ & _ & _ & _ & Hoa). destruct Hb as (_ & _ & _ & _ & _ & Hob).
  destruct (utcoffset a) as [myoff |], (utcoffset b) as [otoff |];
    try discriminate; eauto.
  destruct (timedelta_eqb myoff otoff); [eauto |].
  apply timedelta_new_spec in Hbase. destruct Hbase as [Hv _].
  destruct (add_sub_offsets_total base myoff otoff Hv Hdays Hoa Hob)
    as (t & td & Ht & Htd).
  rewrite Ht. eauto.
Qed.

Lemma sub_mixed a b :
  valid_datetime a -> valid_datetime b ->
  mixes_naive_and_aware a b = true ->
  Datetime.sub a b = Raise TypeError.
Proof.
  intros Ha Hb Hmix.
  destruct (base_total a b Ha Hb) as (base & Hbase & _).
  unfold Datetime.sub. rewrite Hbase.
  unfold mbind, result_bind. unfold mixes_naive_and_aware, naive in Hmix.
  destruct (same_tzinfo a b); [discriminate |].
  destruct (utcoffset a), (utcoffset b); try discriminate; reflexivity.
Qed.

End SubFacts.

(** ** Entries *)

Module EntryFacts.
Import DatetimeFacts DurationFacts SubFacts.

Lemma time_eqb_midnight d :
  time_eqb (time_of d) min_time = true <-> is_midnight d.
Proof.
  unfold time_eqb, is_midnight, time_of, min_time.
  cbn [t_hour t_minute t_second t_microsecond].
  rewrite !Bool.andb_true_iff, !Z.eqb_eq. tauto.
Qed.

Lemma valid_normalize v : valid_value v -> valid_datetime (normalize v).
Proof.
  unfold valid_value, normalize. destruct (dt v) as [d | d]; [| auto].
  intros Hd. unfold valid_datetime, combine, min_time, utcoffset. cbn.
  repeat split; try lia; apply Hd.
Qed.

(** The row that the last lines of [event_to_row] build. *)
Lemma event_to_row_passes event s e :
  DTSTART event = Some s -> DTEND event = Some e ->
  passes_filters event = true ->
  event_to_row event =
    (duration ← duration_minutes (normalize s) (normalize e);
     mret (Some {| r_date := isoformat (date_of (normalize s));
                   r_start := strftime_HM (time_of (normalize s));
                   r_end := strftime_HM (time_of (normalize e));
                   r_summary := default EmptyString (SUMMARY event);
                   r_duration := duration |})).
Proof.
  intros Hs He. unfold passes_filters, event_to_row. rewrite Hs, He.
  destruct (_ && _); [discriminate | reflexivity].
Qed.

Lemma event_to_row_skips event :
  passes_filters event = false -> event_to_row event = Return None.
Proof.
  unfold passes_filters, event_to_row.
  destruct (DTSTART event), (DTEND event); try reflexivity.
  destruct (_ && _); [reflexivity | discriminate].
Qed.

Lemma event_to_row_row event row :
  event_to_row event = Return (Some row) ->
  exists s e delta,
    DTSTART event = Some s /\ DTEND event = Some e
    /\ passes_filters event = true
    /\ Datetime.sub (normalize e) (normalize s) = Return delta
    /\ duration_minutes (normalize s) (normalize e) = Return (r_duration row)
    /\ row = {| r_date := isoformat (date_of (normalize s));
                r_start := strftime_HM (time_of (normalize s));
                r_end := strftime_HM (time_of (normalize e));
                r_summary := default EmptyString (SUMMARY event);
                r_duration := r_duration row |}.
Proof.
  intros H.
  destruct (passes_filters event) eqn:Hp;
    [| rewrite (event_to_row_skips _ Hp) in H; discriminate].
  pose proof Hp as Hp'. unfold passes_filters in Hp'.
  destruct (DTSTART event) as [s |] eqn:Hs; [| discriminate].
  destruct (DTEND event) as [e |] eqn:He; [| discriminate].
  rewrite (event_to_row_passes _ _ _ Hs He Hp) in H.
  exists s, e.
  destruct (Datetime.sub (normalize e) (normalize s)) as [delta | err] eqn:Hsub.
  - exists delta. rewrite (duration_minutes_floor _ _ _ Hsub) in H |- *.
    cbn in H. injection H as <-. cbn [r_duration]. auto 10.
  - unfold duration_minutes in H. rewrite Hsub in H. discriminate.
Qed.

(** An entry that is valid and does not mix naive and aware datetimes
    never raises. *)
Lemma event_to_row_total event :
  valid_event event -> mixed_entry event = false ->
  exists r, event_to_row event = Return r.
Proof.
  intros [Hvs Hve] Hmix.
  destruct (passes_filters event) eqn:Hp;
    [| rewrite (event_to_row_skips _ Hp); eauto].
  unfold mixed_entry in Hmix. pose proof Hp as Hp'. unfold passes_filters in Hp'.
  destruct (DTSTART event) as [s |] eqn:Hs; [| discriminate].
  destruct (DTEND event) as [e |] eqn:He; [| discriminate].
  rewrite Hp in Hmix. cbn [andb] in Hmix.
  destruct (sub_total (normalize e) (normalize s)) as [delta Hsub];
    auto using valid_normalize.
  rewrite (event_to_row_passes _ _ _ Hs He Hp),
    (duration_minutes_floor _ _ _ Hsub). cbn. eauto.
Qed.

Lemma event_to_row_mixed event :
  valid_event event -> mixed_entry event = true ->
  event_to_row event = Raise TypeError.
Proof.
  intros [Hvs Hve] Hmix. unfold mixed_entry in Hmix.
  destruct (DTSTART event) as [s |] eqn:Hs; [| discriminate].
  destruct (DTEND event) as [e |] eqn:He; [| discriminate].
  apply andb_prop in Hmix. destruct Hmix as [Hp Hmix].
  rewrite (event_to_row_passes _ _ _ Hs He Hp). unfold duration_minutes.
  rewrite (sub_mixed (normalize e) (normalize s)); auto using valid_normalize.
Qed.

(** *** The loop of [parse_events] *)

Lemma parse_events_loop_raises evs rows0 event err :
  In event evs -> event_to_row event = Raise err ->
  exists err', parse_events_loop evs rows0 = Raise err'.
Proof.
  revert rows0. induction evs as [| x evs IH]; intros rows0 Hin Hraise; [destruct Hin |].
  cbn [parse_events_loop]. destruct (event_to_row x) as [[r |] | err'] eqn:Hx; cbn.
  - destruct Hin as [-> | Hin]; [congruence | eauto].
  - destruct Hin as [-> | Hin]; [congruence | eauto].
  - eauto.
Qed.

Lemma parse_events_loop_total evs rows0 :
  (forall event, In event evs -> exists r, event_to_row event = Return r) ->
  exists rows, parse_events_loop evs rows0 = Return rows.
Proof.
  revert rows0. induction evs as [| x evs IH]; intros rows0 Hall; [cbn; eauto |].
  cbn [parse_events_loop].
  destruct (Hall x (or_introl eq_refl)) as [r ->]. cbn.
  destruct r; apply IH; intros ev Hin; apply Hall; right; exact Hin.
Qed.

(** The rows are those of the entries that yield one, in the order of
    the entries. *)
Lemma parse_events_loop_rows evs rows0 rows :
  parse_events_loop evs rows0 = Return rows ->
  exists new,
    rows = rows0 ++ new
    /\ Forall2 (fun event r => event_to_row event = Return (Some r))
         (List.filter yields_row evs) new.
Proof.
  revert rows0. induction evs as [| x evs IH]; intros rows0 H.
  - cbn in H. injection H as <-. exists []. rewrite app_nil_r. split; [reflexivity | constructor].
  - cbn [parse_events_loop] in H. cbn [List.filter]. unfold yields_row at 1.
    destruct (event_to_row x) as [[r |] | err] eqn:Hx; cbn in H; [| | discriminate].
    + destruct (IH _ H) as (new & -> & Hnew).
      exists (r :: new). rewrite <- app_assoc. split; [reflexivity |].
      constructor; assumption.
    + apply IH. exact H.
Qed.

End EntryFacts.

(** ** The csv writer and reader *)

Module CsvFacts.
Import Csv.

#[local] Arguments String.append !s1 s2 : simpl nomatch.

Lemma append_nil_r s : s +:+ EmptyString = s.
Proof. induction s as [| c s IH]; cbn; [reflexivity | f_equal; exact IH]. Qed.

Lemma append_assoc s t u : (s +:+ t) +:+ u = s +:+ (t +:+ u).
Proof. induction s as [| c s IH]; cbn; [reflexivity | f_equal; exact IH]. Qed.

Lemma append_cons_nonempty s c t : exists c' t', s +:+ String c t = String c' t'.
Proof. destruct s; cbn; eauto. Qed.

Lemma special_false c :
  special c = false ->
  Ascii.eqb c delimiter = false /\ Ascii.eqb c quotechar = false
  /\ is_newline c = false.
Proof.
  unfold special, is_newline, lineterminator. cbn [in_string].
  destruct (Ascii.eqb c delimiter), (Ascii.eqb c quotechar),
    (Ascii.eqb c CR), (Ascii.eqb c LF); cbn; intros; try discriminate; auto.
Qed.

Lemma field_data_plain s : field_quoted s = false -> field_data s = s.
Proof.
  induction s as [| c s IH]; cbn; [reflexivity |].
  intros H. apply Bool.orb_false_iff in H. destruct H as [Hc Hs].
  apply special_false in Hc. destruct Hc as (_ & -> & _). f_equal. auto.
Qed.

Lemma end_of_line_plain c c' rest :
  is_newline c = false -> end_of_line c (String c' rest) = false.
Proof.
  unfold is_newline, end_of_line. intros H.
  apply Bool.orb_false_iff in H. destruct H as [-> ->]. reflexivity.
Qed.

(** *** Single steps of the reader *)

Lemma reader_step r c rest records r1 :
  parse_process_char r (Some c) = Return r1 ->
  end_of_line c rest = false ->
  reader_loop r (String c rest) records = reader_loop r1 rest records.
Proof. intros H1 H2. cbn [reader_loop]. rewrite H1. cbn. rewrite H2. reflexivity. Qed.

(** Inside a quoted field the end of a line changes nothing. *)
Lemma reader_step_quoted r c rest records r1 :
  parse_process_char r (Some c) = Return r1 ->
  state r1 = IN_QUOTED_FIELD ->
  reader_loop r (String c rest) records = reader_loop r1 rest records.
Proof.
  intros H1 H2. cbn [reader_loop]. rewrite H1. cbn.
  destruct (end_of_line c rest); [| reflexivity].
  unfold parse_process_char. rewrite H2. cbn. rewrite H2. reflexivity.
Qed.

(** After the line terminator the record is complete. *)
Lemma reader_step_record r c rest records r1 :
  parse_process_char r (Some c) = Return r1 ->
  end_of_line c rest = true ->
  state r1 = EAT_CRNL ->
  reader_loop r (String c rest) records
  = reader_loop parse_reset rest (records ++ [fields r1]).
Proof.
  intros H1 H2 H3. cbn [reader_loop]. rewrite H1. cbn. rewrite H2.
  unfold parse_process_char. rewrite H3. reflexivity.
Qed.

(** Characters of an unquoted field. *)
Lemma read_plain s : forall r c rest records,
  field_quoted s = false ->
  state r = IN_FIELD \/ state r = START_FIELD \/ state r = START_RECORD ->
  reader_loop r (s +:+ String c rest) records
  = reader_loop
      (match s with
       | EmptyString => r
       | _ => {| state := IN_FIELD; fields := fields r; field := field r +:+ s |}
       end) (String c rest) records.
Proof.
  induction s as [| a s IH]; intros r c rest records Hq Hst; [reflexivity |].
  cbn in Hq. apply Bool.orb_false_iff in Hq. destruct Hq as [Ha Hs].
  apply special_false in Ha. destruct Ha as (Hd & Hqc & Hnl).
  change (String a s +:+ String c rest) with (String a (s +:+ String c rest)).
  assert (Hstep : parse_process_char r (Some a)
                  = Return (parse_add_char r a IN_FIELD)).
  { unfold parse_process_char.
    destruct Hst as [-> | [-> | ->]]; rewrite ?Hnl, ?Hqc, ?Hd; reflexivity. }
  destruct (append_cons_nonempty s c rest) as (c' & t' & E).
  rewrite (reader_step _ _ _ _ _ Hstep)
    by (rewrite E; apply end_of_line_plain; exact Hnl).
  rewrite IH by (auto; left; reflexivity).
  destruct s; cbn [parse_add_char fields field state]; [reflexivity |].
  rewrite append_assoc. reflexivity.
Qed.

(** The data of a quoted field, up to the quote that closes it. *)
Lemma read_quoted s : forall r c rest records,
  state r = IN_QUOTED_FIELD ->
  reader_loop r (field_data s +:+ String quotechar (String c rest)) records
  = reader_loop {| state := QUOTE_IN_QUOTED_FIELD; fields := fields r;
                   field := field r +:+ s |} (String c rest) records.
Proof.
  induction s as [| a s IH]; intros r c rest records Hst.
  - cbn [field_data String.append].
    rewrite (reader_step r quotechar _ _ (set_state r QUOTE_IN_QUOTED_FIELD)).
    + unfold set_state. rewrite append_nil_r. reflexivity.
    + unfold parse_process_char. rewrite Hst. reflexivity.
    + reflexivity.
  - cbn [field_data]. destruct (Ascii.eqb a quotechar) eqn:Ha.
    + apply Ascii.eqb_eq in Ha. subst a. cbn [String.append].
      destruct (append_cons_nonempty (field_data s) quotechar (String c rest))
        as (c' & t' & E).
      rewrite (reader_step r quotechar _ _ (set_state r QUOTE_IN_QUOTED_FIELD));
        [| unfold parse_process_char; rewrite Hst; reflexivity | reflexivity].
      rewrite (reader_step _ quotechar _ _ (parse_add_char r quotechar IN_QUOTED_FIELD));
        [| reflexivity | rewrite E; reflexivity].
      rewrite IH by reflexivity.
      cbn [parse_add_char fields field]. rewrite append_assoc. reflexivity.
    + cbn [String.append].
      rewrite (reader_step_quoted r a _ _ (parse_add_char r a IN_QUOTED_FIELD));
        [| unfold parse_process_char; rewrite Hst, Ha; reflexivity | reflexivity].
      rewrite IH by reflexivity.
      cbn [parse_add_char fields field]. rewrite append_assoc. reflexivity.
Qed.

(** *** Fields and records *)

Lemma read_field f r c rest :
  state r = START_FIELD \/ state r = START_RECORD ->
  field r = EmptyString ->
  exists r',
    (forall records,
       reader_loop r (field_text f +:+ String c rest) records
       = reader_loop r' (String c rest) records)
    /\ fields r' = fields r /\ at_field_end (state r) f r'.
Proof.
  intros Hst Hf. unfold field_text, join_append. cbn [Nat.ltb Nat.leb orb String.append].
  destruct (field_quoted f) eqn:Hq.
  - exists {| state := QUOTE_IN_QUOTED_FIELD; fields := fields r; field := f |}.
    split; [| split; [reflexivity | split; [reflexivity | auto]]].
    intros records. cbn [String.append]. rewrite append_assoc. cbn [String.append].
    destruct (append_cons_nonempty (field_data f) quotechar (String c rest))
      as (c' & t' & E).
    rewrite (reader_step r quotechar _ _ (set_state r IN_QUOTED_FIELD));
      [| unfold parse_process_char; destruct Hst as [-> | ->]; reflexivity
       | rewrite E; reflexivity].
    rewrite read_quoted by reflexivity.
    cbn [set_state fields field]. rewrite Hf. reflexivity.
  - rewrite (field_data_plain _ Hq).
    exists (match f with
            | EmptyString => r
            | _ => {| state := IN_FIELD; fields := fields r; field := field r +:+ f |}
            end).
    split; [| split].
    + intros records. apply read_plain; tauto.
    + destruct f; reflexivity.
    + unfold at_field_end. destruct f; cbn [state field]; [auto |].
      rewrite Hf. auto.
Qed.

Lemma after_field_delimiter st0 f r c rest records :
  st0 = START_FIELD \/ st0 = START_RECORD ->
  at_field_end st0 f r ->
  reader_loop r (String delimiter (String c rest)) records
  = reader_loop {| state := START_FIELD; fields := fields r ++ [f];
                   field := EmptyString |} (String c rest) records.
Proof.
  intros Hst0 [Hf Hst].
  rewrite (reader_step r delimiter _ _ (parse_save_field r START_FIELD));
    [unfold parse_save_field; rewrite Hf; reflexivity | | reflexivity].
  unfold parse_process_char.
  destruct Hst as [-> | [-> | [-> _]]]; [reflexivity | reflexivity |].
  destruct Hst0 as [-> | ->]; reflexivity.
Qed.

Lemma after_field_terminator f r rest records :
  at_field_end START_FIELD f r ->
  reader_loop r (lineterminator +:+ rest) records
  = reader_loop parse_reset rest (records ++ [fields r ++ [f]]).
Proof.
  intros [Hf Hst]. unfold lineterminator. cbn [String.append].
  rewrite (reader_step r CR _ _ (parse_save_field r EAT_CRNL));
    [| unfold parse_process_char;
       destruct Hst as [-> | [-> | [-> _]]]; reflexivity
     | reflexivity].
  rewrite (reader_step_record _ LF _ _ (parse_save_field r EAT_CRNL));
    [| reflexivity | reflexivity | reflexivity].
  unfold parse_save_field. cbn [fields]. rewrite Hf. reflexivity.
Qed.

(** A record of at least two fields, read from the start of a record or of
    a field. *)
Lemma read_record fs : forall f r rest records,
  state r = START_FIELD \/ (state r = START_RECORD /\ fs <> []) ->
  field r = EmptyString ->
  reader_loop r (field_text f +:+ more_fields fs +:+ lineterminator +:+ rest) records
  = reader_loop parse_reset rest (records ++ [fields r ++ f :: fs]).
Proof.
  induction fs as [| g gs IH]; intros f r rest records Hst Hf.
  - destruct Hst as [Hst | [_ Hne]]; [| contradiction].
    cbn [more_fields String.append].
    destruct (read_field f r CR (String LF rest) (or_introl Hst) Hf)
      as (r' & Hread & Hfs & Hend).
    change (lineterminator +:+ rest) with (String CR (String LF rest)).
    rewrite Hread.
    change (String CR (String LF rest)) with (lineterminator +:+ rest).
    rewrite Hst in Hend.
    rewrite (after_field_terminator f r' rest records Hend), Hfs. reflexivity.
  - cbn [more_fields].
    destruct (append_cons_nonempty (field_text g +:+ more_fields gs)
                CR (String LF rest)) as (c' & t' & E).
    assert (Hst' : state r = START_FIELD \/ state r = START_RECORD) by tauto.
    destruct (read_field f r delimiter
                ((field_text g +:+ more_fields gs) +:+ lineterminator +:+ rest)
                Hst' Hf) as (r' & Hread & Hfs & Hend).
    cbn [String.append]. rewrite Hread.
    change (lineterminator +:+ rest) with (String CR (String LF rest)).
    rewrite E.
    rewrite (after_field_delimiter (state r) f r' c' t' records Hst' Hend).
    rewrite <- E. change (String CR (String LF rest)) with (lineterminator +:+ rest).
    rewrite append_assoc, IH by (auto; left; reflexivity).
    cbn [fields]. rewrite Hfs, <- app_assoc. reflexivity.
Qed.

(** *** The text of a record *)

Lemma join_append_text rec n g :
  (0 < n)%nat ->
  join_append rec n g false = rec +:+ String delimiter (field_text g).
Proof.
  intros Hn. unfold field_text, join_append.
  apply Nat.ltb_lt in Hn. rewrite Hn. cbn [Nat.ltb Nat.leb orb String.append].
  destruct (field_quoted g); rewrite append_assoc; reflexivity.
Qed.

Lemma join_fields_text fs : forall rec n,
  (0 < n)%nat ->
  join_fields rec n fs = (rec +:+ more_fields fs, (n + length fs)%nat).
Proof.
  induction fs as [| g gs IH]; intros rec n Hn; cbn [join_fields more_fields length].
  - rewrite append_nil_r, Nat.add_0_r. reflexivity.
  - rewrite IH by lia. rewrite join_append_text by exact Hn.
    rewrite append_assoc. cbn [String.append]. f_equal. lia.
Qed.

Lemma length_append_cons s c t : String.length (s +:+ String c t) <> O.
Proof. destruct s; cbn; discriminate. Qed.

Lemma writerow_text_fields c1 c2 cs :
  writerow_text (c1 :: c2 :: cs)
  = field_text (cell_text c1) +:+ more_fields (map cell_text (c2 :: cs))
    +:+ lineterminator.
Proof.
  unfold writerow_text. cbn [map join_fields].
  rewrite join_fields_text by lia.
  change (join_append EmptyString 0 (cell_text c1) false)
    with (field_text (cell_text c1)).
  rewrite join_append_text by lia. rewrite !append_assoc.
  cbn [more_fields String.append].
  rewrite (proj2 (Nat.eqb_neq _ _) (length_append_cons _ _ _)).
  rewrite Bool.andb_false_r, !append_assoc. cbn [String.append].
  rewrite ?append_assoc. reflexivity.
Qed.

(** *** Reading back what the writer wrote *)

Lemma reader_loop_rows rows : forall records,
  Forall (fun row : list cell => (2 <= length row)%nat) rows ->
  reader_loop parse_reset
    (fold_right (fun row acc => writerow_text row +:+ acc) EmptyString rows)
    records
  = Return (records ++ map (map cell_text) rows).
Proof.
  induction rows as [| row rows IH]; intros records Hall.
  - cbn. rewrite app_nil_r. reflexivity.
  - inversion Hall as [| ? ? Hlen Hrest]; subst.
    destruct row as [| c1 [| c2 cs]]; cbn in Hlen; try lia.
    cbn [fold_right]. rewrite writerow_text_fields, !append_assoc.
    rewrite read_record; [| right; split; [reflexivity | discriminate] | reflexivity].
    rewrite IH by exact Hrest.
    cbn [parse_reset fields app map]. rewrite <- app_assoc. reflexivity.
Qed.

Lemma csv_text_rows rows :
  csv_text rows
  = fold_right (fun row acc => writerow_text row +:+ acc) EmptyString
      (header :: map row_cells rows).
Proof.
  unfold csv_text. cbn [fold_right]. f_equal.
  induction rows as [| r rows IH]; cbn [fold_right map]; [reflexivity |].
  rewrite IH. reflexivity.
Qed.

(** Reading the file back gives the header and the rows, field by field. *)
Lemma reader_csv_text rows :
  reader (csv_text rows) = Return (header_fields :: map row_fields rows).
Proof.
  unfold reader. rewrite csv_text_rows, reader_loop_rows.
  - cbn [app map]. unfold header_fields, row_fields. rewrite map_map. reflexivity.
  - constructor; [cbn; lia |].
    apply List.Forall_forall. intros row Hin. apply in_map_iff in Hin.
    destruct Hin as (r & <- & _). cbn. lia.
Qed.

End CsvFacts.

(** ** Files *)

Module WorldFacts.
Import Csv CsvFacts.

#[local] Arguments String.append !s1 s2 : simpl nomatch.

Lemma writerows_insert path rows : forall m cw out c,
  writerows path rows {| files := <[path := c]> m; can_write := cw; stdout := out |}
  = {| files := <[path := c +:+ fold_right (fun row acc => writerow_text row +:+ acc)
                                  EmptyString rows]> m;
       can_write := cw; stdout := out |}.
Proof.
  induction rows as [| row rows IH]; intros m cw out c.
  - cbn. rewrite append_nil_r. reflexivity.
  - change (writerows path (row :: rows) ?w)
      with (writerows path rows (writerow path row w)).
    unfold writerow, file_write. cbn [files can_write stdout fold_right].
    rewrite alter_insert_eq, IH, append_assoc. reflexivity.
Qed.

Lemma write_csv_ok rows path w :
  can_write w path = true ->
  write_csv rows path w
  = Return {| files := <[path := csv_text rows]> (files w);
              can_write := can_write w; stdout := stdout w |}.
Proof.
  intros Hw. unfold write_csv, open_w. rewrite Hw.
  unfold mbind, result_bind, mret, result_ret. f_equal.
  change (writerows path (map row_cells rows)
            (writerow path header
               {| files := <[path := EmptyString]> (files w);
                  can_write := can_write w; stdout := stdout w |}))
    with (writerows path (header :: map row_cells rows)
            {| files := <[path := EmptyString]> (files w);
               can_write := can_write w; stdout := stdout w |}).
  rewrite writerows_insert, <- csv_text_rows. reflexivity.
Qed.

Lemma write_csv_refused rows path w :
  can_write w path = false -> write_csv rows path w = Raise OSError.
Proof. intros Hw. unfold write_csv, open_w. rewrite Hw. reflexivity. Qed.

Lemma csv_text_lines rows :
  csv_text rows
  = header_line +:+ fold_right (fun r acc => row_line r +:+ acc) EmptyString rows.
Proof.
  unfold csv_text. f_equal.
  induction rows as [| r rows IH]; cbn [fold_right]; [reflexivity |].
  rewrite IH. f_equal. unfold row_cells. rewrite writerow_text_fields.
  unfold row_line. cbn [map more_fields cell_text String.append].
  rewrite append_nil_r.
  repeat (cbn [String.append]; rewrite ?append_assoc). reflexivity.
Qed.

End WorldFacts.

(** * The claims *)

Import DatetimeFacts DurationFacts SubFacts EntryFacts FmtFacts CsvFacts WorldFacts.

#[local] Arguments String.append !s1 s2 : simpl nomatch.

(** C1: for every entry that produces a row, [duration_minutes] is the floor
    of the span from the normalized start to the normalized end, in seconds
    (as [total_seconds] reports them), divided by 60.  On a span of whole
    seconds, and on any span below 2^53 microseconds, this is the floor of
    the exact quotient; a span of 59.5 minutes gives 59; the value is
    negative when the end precedes the start. *)
Theorem duration_is_floor_of_minutes event row :
  event_to_row event = Return (Some row) ->
  exists s e delta secs,
    DTSTART event = Some s /\ DTEND event = Some e
    /\ Datetime.sub (normalize e) (normalize s) = Return delta
    /\ total_seconds delta = Return secs
    /\ r_duration row = Qfloor (secs / 60)
    /\ (microseconds delta = 0 ->
        r_duration row = (days delta * 86400 + seconds delta) / 60)
    /\ (Z.abs (to_microseconds delta) < 2 ^ 53 ->
        r_duration row = to_microseconds delta / (60 * 10 ^ 6))
    /\ (delta = mkTimedelta 0 (59 * 60 + 30) 0 -> r_duration row = 59)
    /\ (to_microseconds delta < 0 -> r_duration row < 0).
Proof.
  intros H.
  destruct (event_to_row_row _ _ H) as (s & e & delta & Hs & He & _ & Hsub & Hd & _).
  exists s, e, delta, (seconds_of delta).
  pose proof (duration_minutes_floor _ _ _ Hsub) as Hfloor.
  assert (Hwhole : microseconds delta = 0 ->
                   r_duration row = (days delta * 86400 + seconds delta) / 60).
  { intros Hus. pose proof (duration_minutes_whole _ _ _ Hsub Hus). congruence. }
  repeat split; auto.
  - change (60%Q) with (inject_Z 60). congruence.
  - intros Hb. pose proof (duration_minutes_exact _ _ _ Hsub Hb). congruence.
  - intros ->. rewrite Hwhole; reflexivity.
  - intros Hneg. pose proof (duration_minutes_sign _ _ _ _ Hsub Hd). lia.
Qed.

Lemma duration_is_floor_of_minutes_witness :
  exists s e delta secs,
    DTSTART short_hour = Some s /\ DTEND short_hour = Some e
    /\ Datetime.sub (normalize e) (normalize s) = Return delta
    /\ total_seconds delta = Return secs
    /\ 59 = Qfloor (secs / 60)
    /\ (microseconds delta = 0 -> 59 = (days delta * 86400 + seconds delta) / 60)
    /\ (Z.abs (to_microseconds delta) < 2 ^ 53 ->
        59 = to_microseconds delta / (60 * 10 ^ 6))
    /\ (delta = mkTimedelta 0 (59 * 60 + 30) 0 -> 59 = 59)
    /\ (to_microseconds delta < 0 -> 59 < 0).
Proof.
  apply (duration_is_floor_of_minutes short_hour
           {| r_date := "2024-01-01"; r_start := "09:00"; r_end := "09:59";
              r_summary := ""; r_duration := 59 |}).
  vm_compute. reflexivity.
Defined.

(** C2: an entry whose normalized start and end are both at midnight yields
    no row, be it a pair of dates or a timed event from midnight to
    midnight. *)
Theorem midnight_to_midnight_yields_no_row event s e :
  DTSTART event = Some s -> DTEND event = Some e ->
  is_midnight (normalize s) -> is_midnight (normalize e) ->
  event_to_row event = Return None.
Proof.
  intros Hs He Hms Hme. apply event_to_row_skips.
  unfold passes_filters. rewrite Hs, He.
  apply time_eqb_midnight in Hms, Hme. rewrite Hms, Hme. reflexivity.
Qed.

Lemma midnight_to_midnight_yields_no_row_witness :
  event_to_row
    (vevent (Some (naive_dt 2024 1 1 0 0 0 0)) (Some (naive_dt 2024 1 2 0 0 0 0))
            (Some "Night shift")) = Return None.
Proof.
  apply (midnight_to_midnight_yields_no_row _
           (naive_dt 2024 1 1 0 0 0 0) (naive_dt 2024 1 2 0 0 0 0));
    [reflexivity | reflexivity | |]; vm_compute; auto.
Defined.

(** C3: an entry without DTSTART or without DTEND yields no row and raises
    nothing. *)
Theorem absent_start_or_end_yields_no_row event :
  DTSTART event = None \/ DTEND event = None ->
  event_to_row event = Return None.
Proof.
  intros H. apply event_to_row_skips. unfold passes_filters.
  destruct H as [-> | ->]; [reflexivity |]. destruct (DTSTART event); reflexivity.
Qed.

Lemma absent_start_or_end_yields_no_row_witness :
  event_to_row open_ended = Return None.
Proof.
  apply (absent_start_or_end_yields_no_row open_ended). right. reflexivity.
Defined.

(** Beyond 2^53 microseconds the float can carry a span across a minute:
    from 0001-01-01T00:00:00.000001 to 2024-01-01T00:01:00 the exact span
    is one microsecond short of 1063994401 minutes. *)
Remark float_seconds_round_up_after_285_years :
  duration_minutes (mkDatetime 1 1 1 0 0 0 1 None) (mkDatetime 2024 1 1 0 1 0 0 None)
  = Return 1063994401
  /\ (exists delta,
        Datetime.sub (mkDatetime 2024 1 1 0 1 0 0 None) (mkDatetime 1 1 1 0 0 0 1 None)
        = Return delta
        /\ to_microseconds delta / (60 * 10 ^ 6) = 1063994400).
Proof.
  split; [vm_compute; reflexivity |].
  eexists. split; [vm_compute; reflexivity | vm_compute; reflexivity].
Qed.

(** C4: an entry that passes the two filters yields the row made of the ISO
    date of its start, the zero-padded 24-hour [HH:MM] of its start and of
    its end, its summary (the empty string when absent) and the floor
    duration in minutes; the entry 2024-01-01T09:00 to 2024-01-01T17:30
    "Work" yields [(2024-01-01, 09:00, 17:30, Work, 510)]; a date-only value
    is first normalized to that date at midnight. *)
Theorem row_of_a_timed_entry :
  (forall event s e,
     DTSTART event = Some s -> DTEND event = Some e ->
     valid_value s -> valid_value e ->
     ~ (is_midnight (normalize s) /\ is_midnight (normalize e)) ->
     mixes_naive_and_aware (normalize e) (normalize s) = false ->
     exists delta,
       Datetime.sub (normalize e) (normalize s) = Return delta
       /\ event_to_row event =
          Return (Some
            {| r_date := iso_date (year (normalize s)) (month (normalize s))
                                  (day (normalize s));
               r_start := hh_mm (hour (normalize s)) (minute (normalize s));
               r_end := hh_mm (hour (normalize e)) (minute (normalize e));
               r_summary := default EmptyString (SUMMARY event);
               r_duration := Qfloor (seconds_of delta / 60) |}))
  /\ (forall nm tzv subs,
        event_to_row
          (mkComponent nm
             (Some (mkvDDDTypes (DtDatetime (mkDatetime 2024 1 1 9 0 0 0 tzv))))
             (Some (mkvDDDTypes (DtDatetime (mkDatetime 2024 1 1 17 30 0 0 tzv))))
             (Some "Work") subs)
        = Return (Some {| r_date := "2024-01-01"; r_start := "09:00";
                          r_end := "17:30"; r_summary := "Work";
                          r_duration := 510 |}))
  /\ (forall d,
        normalize (mkvDDDTypes (DtDate d))
        = mkDatetime (d_year d) (d_month d) (d_day d) 0 0 0 0 None).
Proof.
  split; [| split].
  - intros event s e Hs He Hvs Hve Hnot Hmix.
    assert (Hp : passes_filters event = true).
    { unfold passes_filters. rewrite Hs, He. apply Bool.negb_true_iff.
      apply Bool.not_true_is_false. intros Hb. apply andb_prop in Hb.
      apply Hnot. split; apply time_eqb_midnight; tauto. }
    pose proof (valid_normalize _ Hvs) as Hns.
    pose proof (valid_normalize _ Hve) as Hne.
    destruct (sub_total _ _ Hne Hns Hmix) as [delta Hsub].
    exists delta. split; [exact Hsub |].
    rewrite (event_to_row_passes _ _ _ Hs He Hp),
      (duration_minutes_floor _ _ _ Hsub).
    destruct Hns as (Hymd & Hh & Hm & _). destruct Hne as (_ & Hh' & Hm' & _).
    rewrite (isoformat_valid (date_of (normalize s)) Hymd).
    rewrite !strftime_HM_valid by assumption. reflexivity.
  - intros nm tzv subs.
    set (s := mkvDDDTypes (DtDatetime (mkDatetime 2024 1 1 9 0 0 0 tzv))).
    set (e := mkvDDDTypes (DtDatetime (mkDatetime 2024 1 1 17 30 0 0 tzv))).
    assert (Hsub : Datetime.sub (normalize e) (normalize s)
                   = Return (mkTimedelta 0 30600 0)).
    { unfold Datetime.sub, same_tzinfo, normalize, s, e. cbn [dt tz].
      destruct tzv as [z |]; [rewrite N.eqb_refl |]; reflexivity. }
    rewrite (event_to_row_passes (mkComponent nm (Some s) (Some e) (Some "Work") subs)
               s e eq_refl eq_refl eq_refl),
      (duration_minutes_whole _ _ _ Hsub eq_refl). reflexivity.
  - reflexivity.
Qed.

Lemma row_of_a_timed_entry_witness :
  exists delta,
    Datetime.sub (normalize (naive_dt 2024 1 1 17 30 0 0))
                 (normalize (naive_dt 2024 1 1 9 0 0 0)) = Return delta
    /\ event_to_row work_day =
       Return (Some
         {| r_date := iso_date 2024 1 1; r_start := hh_mm 9 0; r_end := hh_mm 17 30;
            r_summary := "Work"; r_duration := Qfloor (seconds_of delta / 60) |}).
Proof.
  apply (proj1 row_of_a_timed_entry work_day
           (naive_dt 2024 1 1 9 0 0 0) (naive_dt 2024 1 1 17 30 0 0));
    try reflexivity.
  - vm_compute. intuition discriminate.
  - vm_compute. intuition discriminate.
  - vm_compute. intuition discriminate.
Defined.

(** C7, as the code has it: the duration of an emitted row is an integer
    that is non-negative exactly when the normalized end is not earlier than
    the normalized start, and negative otherwise. *)
Theorem duration_sign_follows_the_span event row :
  event_to_row event = Return (Some row) ->
  exists s e delta,
    DTSTART event = Some s /\ DTEND event = Some e
    /\ Datetime.sub (normalize e) (normalize s) = Return delta
    /\ (0 <= r_duration row <-> 0 <= to_microseconds delta).
Proof.
  intros H.
  destruct (event_to_row_row _ _ H) as (s & e & delta & Hs & He & _ & Hsub & Hd & _).
  exists s, e, delta. repeat split; auto; apply (duration_minutes_sign _ _ _ _ Hsub Hd).
Qed.

Lemma duration_sign_follows_the_span_witness :
  exists s e delta,
    DTSTART work_day = Some s /\ DTEND work_day = Some e
    /\ Datetime.sub (normalize e) (normalize s) = Return delta
    /\ (0 <= 510 <-> 0 <= to_microseconds delta).
Proof.
  apply (duration_sign_follows_the_span work_day
           {| r_date := "2024-01-01"; r_start := "09:00"; r_end := "17:30";
              r_summary := "Work"; r_duration := 510 |}).
  vm_compute. reflexivity.
Defined.

(** C7 fails as stated: an entry whose end precedes its start yields a row
    with a negative duration. *)
Lemma backwards_entry_has_negative_duration :
  event_to_row backwards
  = Return (Some {| r_date := "2024-01-01"; r_start := "17:30"; r_end := "09:00";
                    r_summary := "Work"; r_duration := -510 |})
  /\ ~ (0 <= -510).
Proof. split; [vm_compute; reflexivity | lia]. Qed.

(** An entry that mixes a naive and an aware datetime stops the loop with
    its TypeError. *)
Lemma parse_events_loop_mixed evs : forall rows0 event,
  (forall x, In x evs -> valid_event x) ->
  In event evs -> mixed_entry event = true ->
  parse_events_loop evs rows0 = Raise TypeError.
Proof.
  induction evs as [| x evs IH]; intros rows0 event Hvalid Hin Hmix; [destruct Hin |].
  cbn [parse_events_loop].
  assert (Hx : valid_event x) by (apply Hvalid; left; reflexivity).
  destruct (mixed_entry x) eqn:Hmx.
  - rewrite (event_to_row_mixed _ Hx Hmx). reflexivity.
  - destruct (event_to_row_total _ Hx Hmx) as [r ->].
    assert (Hin' : In event evs).
    { destruct Hin as [-> | Hin]; [congruence | exact Hin]. }
    assert (Hvalid' : forall y, In y evs -> valid_event y)
      by (intros y Hy; apply Hvalid; right; exact Hy).
    cbn. destruct r; eapply IH; eauto.
Qed.

(** C6, as the code has it: over entries that hold valid dates and
    datetimes, [event_to_row] and [parse_events] return without an error
    unless an entry that passes the two filters pairs a naive value with an
    aware one; such an entry makes [event_to_row] raise TypeError at the
    subtraction, and [parse_events] lets it through. *)
Theorem extraction_raises_only_when_naive_meets_aware cal :
  (forall event, In event (walk cal "VEVENT") -> valid_event event) ->
  (forall event, In event (walk cal "VEVENT") ->
     (mixed_entry event = false -> exists r, event_to_row event = Return r)
     /\ (mixed_entry event = true ->
         event_to_row event = Raise TypeError
         /\ parse_events cal = Raise TypeError))
  /\ ((forall event, In event (walk cal "VEVENT") -> mixed_entry event = false) ->
      exists rows, parse_events cal = Return rows).
Proof.
  intros Hvalid. split.
  - intros event Hin. split.
    + intros Hmix. apply event_to_row_total; auto.
    + intros Hmix. split; [apply event_to_row_mixed; auto |].
      unfold parse_events. eapply parse_events_loop_mixed; eauto.
  - intros Hnone. unfold parse_events. apply parse_events_loop_total.
    intros event Hin. apply event_to_row_total; auto.
Qed.

Lemma extraction_raises_only_when_naive_meets_aware_witness :
  exists rows, parse_events (vcalendar [work_day; holiday; open_ended]) = Return rows.
Proof.
  apply (extraction_raises_only_when_naive_meets_aware
           (vcalendar [work_day; holiday; open_ended])).
  - intros event Hin. vm_compute in Hin.
    destruct Hin as [<- | [<- | [<- | []]]]; split; intros v Hv;
      vm_compute in Hv; try discriminate; injection Hv as <-;
      vm_compute; intuition discriminate.
  - intros event Hin. vm_compute in Hin.
    destruct Hin as [<- | [<- | [<- | []]]]; vm_compute; reflexivity.
Defined.

(** C6 fails as stated: a floating start with an end in UTC is a valid
    entry, and extraction raises TypeError on it. *)
Lemma floating_start_utc_end_raises :
  valid_event floating_to_utc
  /\ event_to_row floating_to_utc = Raise TypeError
  /\ parse_events (vcalendar [work_day; floating_to_utc]) = Raise TypeError.
Proof.
  split; [| split; vm_compute; reflexivity].
  split; intros v Hv; vm_compute in Hv; injection Hv as <-;
    vm_compute; intuition discriminate.
Qed.

(** C9: the rows come in the order in which [walk] meets the entries: they
    are, one for one and in the same order, the rows of the entries that
    yield one. *)
Theorem rows_follow_document_order cal rows :
  parse_events cal = Return rows ->
  Forall2 (fun event r => event_to_row event = Return (Some r))
    (List.filter yields_row (walk cal "VEVENT")) rows.
Proof.
  intros H. unfold parse_events in H.
  destruct (parse_events_loop_rows _ _ _ H) as (new & -> & Hnew). exact Hnew.
Qed.

Lemma rows_follow_document_order_witness :
  Forall2 (fun event r => event_to_row event = Return (Some r))
    (List.filter yields_row
       (walk (vcalendar [backwards; holiday; work_day; open_ended; short_hour])
             "VEVENT"))
    [ {| r_date := "2024-01-01"; r_start := "17:30"; r_end := "09:00";
         r_summary := "Work"; r_duration := -510 |};
      {| r_date := "2024-01-01"; r_start := "09:00"; r_end := "17:30";
         r_summary := "Work"; r_duration := 510 |};
      {| r_date := "2024-01-01"; r_start := "09:00"; r_end := "09:59";
         r_summary := ""; r_duration := 59 |} ].
Proof.
  apply (rows_follow_document_order
           (vcalendar [backwards; holiday; work_day; open_ended; short_hour])).
  vm_compute. reflexivity.
Defined.

(** C10: whatever the file at the output path held before, after
    [write_csv] it holds exactly the header line and the row lines; nothing
    is appended to the old text, and no other file changes. *)
Theorem write_csv_replaces_the_file rows path old w :
  can_write w path = true ->
  exists w',
    write_csv rows path (with_file path old w) = Return w'
    /\ files w' !! path
       = Some (header_line
               +:+ fold_right (fun r acc => row_line r +:+ acc) EmptyString rows)
    /\ files w' = <[path := csv_text rows]> (files w)
    /\ write_csv rows path w = Return w'.
Proof.
  intros Hw.
  exists {| files := <[path := csv_text rows]> (files w);
            can_write := can_write w; stdout := stdout w |}.
  rewrite !write_csv_ok by exact Hw.
  unfold with_file. cbn [files can_write stdout].
  rewrite insert_insert_eq, lookup_insert_eq, csv_text_lines. auto.
Qed.

Lemma write_csv_replaces_the_file_witness :
  exists w',
    write_csv [standup] "out.csv" (with_file "out.csv" "old text" empty_world)
    = Return w'
    /\ files w' !! "out.csv"
       = Some (header_line
               +:+ fold_right (fun r acc => row_line r +:+ acc) EmptyString [standup])
    /\ files w' = <[ "out.csv" := csv_text [standup] ]> (files empty_world)
    /\ write_csv [standup] "out.csv" empty_world = Return w'.
Proof.
  apply (write_csv_replaces_the_file [standup] "out.csv" "old text" empty_world).
  reflexivity.
Defined.

(** C8: the file starts with the literal header line
    [Date,Start,End,Summary,Duration(min)], followed by one record per row:
    its fields separated by commas, a field being quoted (with its quotes
    doubled) exactly when it holds a comma, a quote, a carriage return or a
    line feed.  Reading the file back with the same dialect gives the header
    and, for each row, its five fields unchanged, the summary among them. *)
Theorem csv_file_reads_back rows path w :
  can_write w path = true ->
  exists w',
    write_csv rows path w = Return w'
    /\ files w' !! path = Some (csv_text rows)
    /\ csv_text rows
       = header_line
         +:+ fold_right (fun r acc => row_line r +:+ acc) EmptyString rows
    /\ (forall f,
          field_text f
          = if Csv.field_quoted f
            then String Csv.quotechar
                   (Csv.field_data f +:+ String Csv.quotechar EmptyString)
            else f)
    /\ Csv.reader (csv_text rows)
       = Return (["Date"; "Start"; "End"; "Summary"; "Duration(min)"]
                 :: map (fun r => [r_date r; r_start r; r_end r; r_summary r;
                                   Fmt.str (r_duration r)]) rows).
Proof.
  intros Hw.
  exists {| files := <[path := csv_text rows]> (files w);
            can_write := can_write w; stdout := stdout w |}.
  split; [apply write_csv_ok; exact Hw |].
  split; [apply lookup_insert_eq |].
  split; [apply csv_text_lines |].
  split; [| apply reader_csv_text].
  intros f. unfold field_text, Csv.join_append. cbn [Nat.ltb Nat.leb orb].
  destruct (Csv.field_quoted f) eqn:Hq; [reflexivity |].
  rewrite (field_data_plain _ Hq). reflexivity.
Qed.

Lemma csv_file_reads_back_witness :
  exists w',
    write_csv [standup] "out.csv" empty_world = Return w'
    /\ files w' !! "out.csv" = Some (csv_text [standup])
    /\ csv_text [standup]
       = header_line
         +:+ fold_right (fun r acc => row_line r +:+ acc) EmptyString [standup]
    /\ (forall f,
          field_text f
          = if Csv.field_quoted f
            then String Csv.quotechar
                   (Csv.field_data f +:+ String Csv.quotechar EmptyString)
            else f)
    /\ Csv.reader (csv_text [standup])
       = Return (["Date"; "Start"; "End"; "Summary"; "Duration(min)"]
                 :: map (fun r => [r_date r; r_start r; r_end r; r_summary r;
                                   Fmt.str (r_duration r)]) [standup]).
Proof.
  apply (csv_file_reads_back [standup] "out.csv" empty_world). reflexivity.
Defined.

(** C5: when extraction yields no row, [main] prints the warning, leaves
    every file as it was (the output file is neither written nor created)
    and exits normally; otherwise it writes the output file and prints the
    number of rows. *)
Theorem main_warns_or_writes from_ical args w cal rows :
  load_calendar from_ical (ics_file args) w = Return cal ->
  parse_events cal = Return rows ->
  (rows = [] ->
   exists w',
     main from_ical args w = Return w'
     /\ files w' = files w
     /\ stdout w' = stdout w ++ ["Warning: No events found in " +:+ ics_file args])
  /\ (rows <> [] ->
      can_write w (default default_output (output args)) = true ->
      exists w',
        main from_ical args w = Return w'
        /\ files w' = <[default default_output (output args) := csv_text rows]> (files w)
        /\ stdout w'
           = stdout w
             ++ ["Converted " +:+ Fmt.str (Z.of_nat (length rows))
                 +:+ " events to " +:+ default default_output (output args)]).
Proof.
  intros Hload Hparse. unfold main. rewrite Hload. cbn [mbind result_bind].
  rewrite Hparse. cbn [mbind result_bind]. split.
  - intros ->. eexists. split; [reflexivity |]. split; reflexivity.
  - intros Hne Hw. destruct rows as [| r rows]; [contradiction |].
    rewrite (write_csv_ok _ _ _ Hw). cbn [mbind result_bind].
    eexists. split; [reflexivity |]. split; reflexivity.
Qed.

Lemma main_warns_or_writes_witness :
  exists w',
    main (fun _ => Return (vcalendar [holiday]))
         {| ics_file := "in.ics"; output := None |}
         (with_file "in.ics" "BEGIN:VCALENDAR" empty_world) = Return w'
    /\ files w' = files (with_file "in.ics" "BEGIN:VCALENDAR" empty_world)
    /\ stdout w' = ["Warning: No events found in in.ics"].
Proof.
  apply (proj1 (main_warns_or_writes (fun _ => Return (vcalendar [holiday]))
                  {| ics_file := "in.ics"; output := None |}
                  (with_file "in.ics" "BEGIN:VCALENDAR" empty_world)
                  (vcalendar [holiday]) [] eq_refl eq_refl)).
  reflexivity.
Defined.

(** * Further properties of the pipeline *)

(** ** Which entries are skipped *)

(** X1: [event_to_row] returns [None] only for the two filters: a missing
    DTSTART or DTEND, or a start and an end that are both at midnight.  An
    entry with only one of the two at midnight is not skipped. *)
Theorem skipped_exactly_when_absent_or_all_day event :
  event_to_row event = Return None
  <-> (DTSTART event = None \/ DTEND event = None
       \/ exists s e, DTSTART event = Some s /\ DTEND event = Some e
                      /\ is_midnight (normalize s) /\ is_midnight (normalize e)).
Proof.
  split.
  - intros H. destruct (DTSTART event) as [s |] eqn:Hs; [| auto].
    destruct (DTEND event) as [e |] eqn:He; [| auto].
    right. right. exists s, e.
    destruct (passes_filters event) eqn:Hp.
    + rewrite (event_to_row_passes _ _ _ Hs He Hp) in H.
      destruct (duration_minutes (normalize s) (normalize e)); discriminate.
    + unfold passes_filters in Hp. rewrite Hs, He in Hp.
      apply Bool.negb_false_iff, andb_prop in Hp.
      repeat split; auto; apply time_eqb_midnight; tauto.
  - intros [H | [H | (s & e & Hs & He & Hms & Hme)]].
    + apply event_to_row_skips. unfold passes_filters. rewrite H. reflexivity.
    + apply event_to_row_skips. unfold passes_filters. rewrite H.
      destruct (DTSTART event); reflexivity.
    + apply event_to_row_skips. unfold passes_filters. rewrite Hs, He.
      apply time_eqb_midnight in Hms, Hme. rewrite Hms, Hme. reflexivity.
Qed.

Lemma skipped_exactly_when_absent_or_all_day_witness :
  DTSTART holiday = None \/ DTEND holiday = None
  \/ exists s e, DTSTART holiday = Some s /\ DTEND holiday = Some e
                 /\ is_midnight (normalize s) /\ is_midnight (normalize e).
Proof.
  apply (proj1 (skipped_exactly_when_absent_or_all_day holiday)).
  vm_compute. reflexivity.
Defined.

(** ** What the subtraction measures *)

Lemma sub_microseconds a b delta :
  Datetime.sub a b = Return delta ->
  (same_tzinfo a b = true ->
   to_microseconds delta = wall_microseconds a - wall_microseconds b)
  /\ (same_tzinfo a b = false ->
      match utcoffset a, utcoffset b with
      | Some oa, Some ob =>
          to_microseconds delta
          = (wall_microseconds a - to_microseconds oa)
            - (wall_microseconds b - to_microseconds ob)
      | _, _ => to_microseconds delta = wall_microseconds a - wall_microseconds b
      end).
Proof.
  unfold Datetime.sub, wall_microseconds.
  destruct (timedelta_new _ _ _) as [base |] eqn:Hb; [| discriminate].
  apply timedelta_new_spec in Hb. destruct Hb as [_ Hb].
  cbn [mbind result_bind]. unfold mbind, result_bind.
  destruct (same_tzinfo a b).
  - intros [= <-]. split; [intros _; lia | discriminate].
  - intros H. split; [discriminate | intros _].
    destruct (utcoffset a) as [oa |], (utcoffset b) as [ob |];
      try discriminate; try (injection H as <-; lia).
    destruct (timedelta_eqb oa ob) eqn:Heq.
    + injection H as <-.
      unfold timedelta_eqb in Heq. apply andb_prop in Heq. destruct Heq as [Heq H3].
      apply andb_prop in Heq. destruct Heq as [H1 H2].
      apply Z.eqb_eq in H1, H2, H3. unfold to_microseconds at 2 3.
      rewrite H1, H2, H3. lia.
    + destruct (timedelta_add base ob) as [t |] eqn:Ht; [| discriminate].
      unfold timedelta_add in Ht. apply timedelta_new_spec in Ht.
      unfold timedelta_sub in H. apply timedelta_new_spec in H.
      destruct Ht as [_ Ht]. destruct H as [_ H].
      unfold to_microseconds in *. lia.
Qed.

(** X2: the duration counts wall-clock time when start and end carry the
    same tzinfo object (or none), whatever their utcoffsets, and elapsed
    time between the two instants when they carry different ones. *)
Theorem duration_measures_wall_clock_or_instants event row :
  event_to_row event = Return (Some row) ->
  exists s e delta,
    DTSTART event = Some s /\ DTEND event = Some e
    /\ Datetime.sub (normalize e) (normalize s) = Return delta
    /\ r_duration row = Qfloor (seconds_of delta / 60)
    /\ (same_tzinfo (normalize e) (normalize s) = true ->
        to_microseconds delta
        = wall_microseconds (normalize e) - wall_microseconds (normalize s))
    /\ (forall oe os,
          same_tzinfo (normalize e) (normalize s) = false ->
          utcoffset (normalize e) = Some oe -> utcoffset (normalize s) = Some os ->
          to_microseconds delta
          = (wall_microseconds (normalize e) - to_microseconds oe)
            - (wall_microseconds (normalize s) - to_microseconds os)).
Proof.
  intros H.
  destruct (event_to_row_row _ _ H) as (s & e & delta & Hs & He & _ & Hsub & Hd & _).
  exists s, e, delta.
  destruct (sub_microseconds _ _ _ Hsub) as [Hsame Hdiff].
  pose proof (duration_minutes_floor _ _ _ Hsub) as Hfloor.
  repeat split; auto.
  - change (60%Q) with (inject_Z 60). congruence.
  - intros oe os Hne Hoe Hos. specialize (Hdiff Hne). rewrite Hoe, Hos in Hdiff.
    exact Hdiff.
Qed.

Lemma duration_measures_wall_clock_or_instants_witness :
  exists s e delta,
    DTSTART across_zones = Some s /\ DTEND across_zones = Some e
    /\ Datetime.sub (normalize e) (normalize s) = Return delta
    /\ 90 = Qfloor (seconds_of delta / 60)
    /\ (same_tzinfo (normalize e) (normalize s) = true ->
        to_microseconds delta
        = wall_microseconds (normalize e) - wall_microseconds (normalize s))
    /\ (forall oe os,
          same_tzinfo (normalize e) (normalize s) = false ->
          utcoffset (normalize e) = Some oe -> utcoffset (normalize s) = Some os ->
          to_microseconds delta
          = (wall_microseconds (normalize e) - to_microseconds oe)
            - (wall_microseconds (normalize s) - to_microseconds os)).
Proof.
  apply (duration_measures_wall_clock_or_instants across_zones
           {| r_date := "2024-01-01"; r_start := "09:00"; r_end := "09:30";
              r_summary := "Call"; r_duration := 90 |}).
  vm_compute. reflexivity.
Defined.

(** ** Edges of the duration *)

(** X3: the duration is floored, not truncated towards zero: a span of less
    than a minute gives 0 when the end is not before the start and -1 when it
    is; in general the duration [d] of a span below 2^53 microseconds
    satisfies [d] minutes <= span < [d + 1] minutes. *)
Theorem duration_brackets_the_span event row :
  event_to_row event = Return (Some row) ->
  exists s e delta,
    DTSTART event = Some s /\ DTEND event = Some e
    /\ Datetime.sub (normalize e) (normalize s) = Return delta
    /\ (Z.abs (to_microseconds delta) < 2 ^ 53 ->
        60000000 * r_duration row <= to_microseconds delta
        < 60000000 * (r_duration row + 1))
    /\ (0 <= to_microseconds delta < 60000000 -> r_duration row = 0)
    /\ (-60000000 <= to_microseconds delta < 0 -> r_duration row = -1).
Proof.
  intros H.
  destruct (event_to_row_row _ _ H) as (s & e & delta & Hs & He & _ & Hsub & Hd & _).
  exists s, e, delta.
  assert (Hex : Z.abs (to_microseconds delta) < 2 ^ 53 ->
                r_duration row = to_microseconds delta / 60000000).
  { intros Hb. pose proof (duration_minutes_exact _ _ _ Hsub Hb) as Hx.
    change (60 * 10 ^ 6) with 60000000 in Hx. congruence. }
  change (2 ^ 53) with 9007199254740992 in *.
  repeat split; auto.
  - rewrite Hex by assumption. Z.div_mod_to_equations. lia.
  - rewrite Hex by assumption. Z.div_mod_to_equations. lia.
  - intros [H1 H2]. rewrite Hex by lia. Z.div_mod_to_equations. lia.
  - intros [H1 H2]. rewrite Hex by lia. Z.div_mod_to_equations. lia.
Qed.

Lemma duration_brackets_the_span_witness :
  exists s e delta,
    DTSTART one_second_back = Some s /\ DTEND one_second_back = Some e
    /\ Datetime.sub (normalize e) (normalize s) = Return delta
    /\ (Z.abs (to_microseconds delta) < 2 ^ 53 ->
        60000000 * -1 <= to_microseconds delta < 60000000 * (-1 + 1))
    /\ (0 <= to_microseconds delta < 60000000 -> -1 = 0)
    /\ (-60000000 <= to_microseconds delta < 0 -> -1 = -1).
Proof.
  apply (duration_brackets_the_span one_second_back
           {| r_date := "2024-01-01"; r_start := "09:00"; r_end := "09:00";
              r_summary := ""; r_duration := -1 |}).
  vm_compute. reflexivity.
Defined.

(** ** Dates mixed with datetimes *)

(** X4: a date-only start with a naive timed end that is not at midnight
    yields a row: the start reads 00:00 on the start date and the duration
    runs from that midnight.  With an aware timed end instead, the entry
    raises TypeError. *)
Theorem date_only_start_counts_from_midnight event d e :
  DTSTART event = Some (mkvDDDTypes (DtDate d)) ->
  DTEND event = Some (mkvDDDTypes (DtDatetime e)) ->
  valid_date d -> valid_datetime e -> ~ is_midnight e ->
  (utcoffset e = None ->
   exists delta,
     event_to_row event
     = Return (Some {| r_date := iso_date (d_year d) (d_month d) (d_day d);
                       r_start := "00:00";
                       r_end := hh_mm (hour e) (minute e);
                       r_summary := default EmptyString (SUMMARY event);
                       r_duration := Qfloor (seconds_of delta / 60) |})
     /\ to_microseconds delta
        = wall_microseconds e
          - ymd2ord (d_year d) (d_month d) (d_day d) * 86400 * 10 ^ 6)
  /\ (utcoffset e <> None -> event_to_row event = Raise TypeError).
Proof.
  intros Hs He Hd Hve Hnm.
  set (s := mkvDDDTypes (DtDate d)) in *. set (ev := mkvDDDTypes (DtDatetime e)) in *.
  assert (Hvs : valid_datetime (normalize s)) by (apply valid_normalize; exact Hd).
  assert (Hp : passes_filters event = true).
  { unfold passes_filters. rewrite Hs, He. apply Bool.negb_true_iff.
    apply Bool.not_true_is_false. intros Hb. apply andb_prop in Hb.
    apply Hnm. apply time_eqb_midnight. apply Hb. }
  assert (Htz : same_tzinfo (normalize ev) (normalize s)
                = match tz e with None => true | Some _ => false end).
  { unfold same_tzinfo, normalize, s, ev. cbn. destruct (tz e); reflexivity. }
  split.
  - intros Hoff.
    assert (Hmix : mixes_naive_and_aware (normalize ev) (normalize s) = false).
    { unfold mixes_naive_and_aware, naive. change (normalize ev) with e.
      rewrite Hoff. cbn. apply Bool.andb_false_r. }
    destruct (sub_total _ _ Hve Hvs Hmix) as [delta Hsub].
    exists delta. split.
    + rewrite (event_to_row_passes _ _ _ Hs He Hp).
      change (normalize ev) with e.
      rewrite (duration_minutes_floor _ _ _ Hsub).
      destruct Hvs as (Hymd & _). destruct Hve as (_ & Hh' & Hm' & _).
      rewrite (isoformat_valid (date_of (normalize s)) Hymd).
      rewrite (strftime_HM_valid (time_of e)) by assumption.
      reflexivity.
    + destruct (sub_microseconds _ _ _ Hsub) as [Hsame Hdiff].
      change (normalize ev) with e in *.
      assert (Hw : wall_microseconds (normalize s)
                   = ymd2ord (d_year d) (d_month d) (d_day d) * 86400 * 10 ^ 6).
      { unfold wall_microseconds, toordinal, normalize, s. cbn. lia. }
      rewrite <- Hw.
      destruct (same_tzinfo e (normalize s)); [apply Hsame; reflexivity |].
      specialize (Hdiff eq_refl). rewrite Hoff in Hdiff. exact Hdiff.
  - intros Hoff. apply event_to_row_mixed.
    + split; intros v Hv; [rewrite Hs in Hv | rewrite He in Hv];
        injection Hv as <-; assumption.
    + unfold mixed_entry. rewrite Hs, He, Hp. cbn [andb].
      unfold mixes_naive_and_aware, naive. change (normalize ev) with e in *.
      rewrite Htz. unfold utcoffset in *. destruct (tz e) as [z |]; [| contradiction].
      destruct (tz_utcoffset z); [reflexivity | contradiction].
Qed.

Lemma date_only_start_counts_from_midnight_witness :
  (utcoffset (mkDatetime 2024 1 1 8 30 0 0 None) = None ->
   exists delta,
     event_to_row from_date_to_time
     = Return (Some {| r_date := iso_date 2024 1 1; r_start := "00:00";
                       r_end := hh_mm 8 30; r_summary := "Night";
                       r_duration := Qfloor (seconds_of delta / 60) |})
     /\ to_microseconds delta
        = wall_microseconds (mkDatetime 2024 1 1 8 30 0 0 None)
          - ymd2ord 2024 1 1 * 86400 * 10 ^ 6)
  /\ (utcoffset (mkDatetime 2024 1 1 8 30 0 0 None) <> None ->
      event_to_row from_date_to_time = Raise TypeError).
Proof.
  apply (date_only_start_counts_from_midnight from_date_to_time
           (mkDate 2024 1 1) (mkDatetime 2024 1 1 8 30 0 0 None));
    try reflexivity; vm_compute; intuition discriminate.
Defined.

(** ** Calendar order *)

Module OrderFacts.

Lemma days_before_year_succ y :
  days_before_year (y + 1) = days_before_year y + days_in_year y.
Proof.
  unfold days_before_year, days_in_year, is_leap.
  replace (y + 1 - 1) with y by lia.
  destruct (y mod 4 =? 0) eqn:H4; destruct (y mod 100 =? 0) eqn:H100;
    destruct (y mod 400 =? 0) eqn:H400; cbn [andb orb negb];
    rewrite ?Z.eqb_eq, ?Z.eqb_neq in *; Z.div_mod_to_equations; lia.
Qed.

Lemma days_before_year_mono y y' :
  y <= y' -> days_before_year y <= days_before_year y'.
Proof. intros H. unfold days_before_year. Z.div_mod_to_equations. lia. Qed.

(** Evaluate the closed look-ups in the month table. *)
Ltac eval_month_table :=
  repeat match goal with
    | |- context [nth ?n DAYS_IN_MONTH 0] =>
        let v := eval vm_compute in (nth n DAYS_IN_MONTH 0) in
        change (nth n DAYS_IN_MONTH 0) with v
    | H : context [nth ?n DAYS_IN_MONTH 0] |- _ =>
        let v := eval vm_compute in (nth n DAYS_IN_MONTH 0) in
        change (nth n DAYS_IN_MONTH 0) with v in H
    | |- context [fold_right Z.add 0 (firstn ?n DAYS_IN_MONTH)] =>
        let v := eval vm_compute in (fold_right Z.add 0 (firstn n DAYS_IN_MONTH)) in
        change (fold_right Z.add 0 (firstn n DAYS_IN_MONTH)) with v
    end;
  cbn [Z.eqb Z.ltb Z.compare Pos.compare Pos.compare_cont Pos.eqb andb] in *.

Lemma months_cases m :
  1 <= m <= 12 ->
  m = 1 \/ m = 2 \/ m = 3 \/ m = 4 \/ m = 5 \/ m = 6 \/ m = 7
  \/ m = 8 \/ m = 9 \/ m = 10 \/ m = 11 \/ m = 12.
Proof. lia. Qed.

(** A valid day of month [m] comes before the first of any later month. *)
Lemma day_before_later_month y m m' d :
  1 <= m <= 12 -> 1 <= m' <= 12 -> m < m' -> 1 <= d <= days_in_month y m ->
  days_before_month y m + d <= days_before_month y m'.
Proof.
  intros Hm Hm' Hlt Hd. unfold days_before_month, days_in_month in *.
  apply months_cases in Hm, Hm'.
  destruct (is_leap y);
    decompose [or] Hm; subst m; decompose [or] Hm'; subst m';
    try lia; eval_month_table; lia.
Qed.

(** A valid day lies within its year. *)
Lemma day_within_year y m d :
  1 <= m <= 12 -> 1 <= d <= days_in_month y m ->
  days_before_month y m + d <= days_in_year y.
Proof.
  intros Hm Hd. unfold days_before_month, days_in_month, days_in_year in *.
  apply months_cases in Hm.
  destruct (is_leap y); decompose [or] Hm; subst m; eval_month_table; lia.
Qed.

Lemma ymd2ord_lt y m d y' m' d' :
  valid_ymd y m d -> valid_ymd y' m' d' ->
  lex_compare [y; m; d] [y'; m'; d'] = Lt ->
  ymd2ord y m d < ymd2ord y' m' d'.
Proof.
  intros (Hy & Hm & Hd) (Hy' & Hm' & Hd'). unfold ymd2ord. cbn [lex_compare].
  pose proof (SubFacts.days_before_month_bounds y' m' Hm').
  destruct (Z.compare_spec y y') as [-> | Hlt | Hgt]; [| | discriminate].
  - destruct (Z.compare_spec m m') as [-> | Hlt | Hgt]; [| | discriminate].
    + destruct (Z.compare_spec d d'); try discriminate. lia.
    + intros _. pose proof (day_before_later_month y' m m' d Hm Hm' Hlt Hd). lia.
  - intros _. pose proof (day_within_year y m d Hm Hd).
    pose proof (days_before_year_succ y).
    pose proof (days_before_year_mono (y + 1) y' ltac:(lia)). lia.
Qed.

Lemma lex_compare_antisym xs : forall ys,
  lex_compare ys xs = CompOpp (lex_compare xs ys).
Proof.
  induction xs as [| x xs IH]; intros [| y ys]; cbn [lex_compare]; try reflexivity.
  rewrite (Z.compare_antisym x y).
  destruct (x ?= y); cbn [CompOpp]; auto.
Qed.

Lemma lex_compare_eq7 a b c d e f g a' b' c' d' e' f' g' :
  lex_compare [a; b; c; d; e; f; g] [a'; b'; c'; d'; e'; f'; g'] = Eq ->
  a = a' /\ b = b' /\ c = c' /\ d = d' /\ e = e' /\ f = f' /\ g = g'.
Proof.
  cbn [lex_compare].
  repeat match goal with
         | |- context [?x ?= ?y] =>
             destruct (Z.compare_spec x y); try discriminate
         end.
  auto 10.
Qed.

(** Reading earlier means a smaller wall-clock count. *)
Lemma wall_lt a b :
  valid_datetime a -> valid_datetime b ->
  lex_compare (wall_fields a) (wall_fields b) = Lt ->
  wall_microseconds a < wall_microseconds b.
Proof.
  intros (Hda & Hha & Hma & Hsa & Hua & _) (Hdb & Hhb & Hmb & Hsb & Hub & _).
  unfold wall_fields, wall_microseconds, toordinal. cbn [lex_compare].
  pose proof (ymd2ord_lt _ _ _ _ _ _ Hda Hdb) as Hord. cbn [lex_compare] in Hord.
  change (10 ^ 6) with 1000000.
  destruct (Z.compare_spec (year a) (year b)) as [Hy | Hy | Hy];
    [| intros _; specialize (Hord eq_refl); lia | discriminate].
  destruct (Z.compare_spec (month a) (month b)) as [Hm | Hm | Hm];
    [| intros _; specialize (Hord eq_refl); lia | discriminate].
  destruct (Z.compare_spec (day a) (day b)) as [Hd | Hd | Hd];
    [| intros _; specialize (Hord eq_refl); lia | discriminate].
  rewrite Hy, Hm, Hd.
  destruct (Z.compare_spec (hour a) (hour b)) as [Hh | Hh | Hh];
    [| intros _; lia | discriminate].
  destruct (Z.compare_spec (minute a) (minute b)) as [Hmi | Hmi | Hmi];
    [| intros _; lia | discriminate].
  destruct (Z.compare_spec (second a) (second b)) as [Hs | Hs | Hs];
    [| intros _; lia | discriminate].
  destruct (Z.compare_spec (microsecond a) (microsecond b)); try discriminate.
  intros _. lia.
Qed.

Lemma wall_compare a b :
  valid_datetime a -> valid_datetime b ->
  (wall_microseconds a ?= wall_microseconds b)
  = lex_compare (wall_fields a) (wall_fields b).
Proof.
  intros Ha Hb.
  destruct (lex_compare (wall_fields a) (wall_fields b)) eqn:Hc.
  - apply lex_compare_eq7 in Hc. destruct Hc as (H1 & H2 & H3 & H4 & H5 & H6 & H7).
    apply Z.compare_eq_iff. unfold wall_microseconds, toordinal.
    rewrite H1, H2, H3, H4, H5, H6, H7. reflexivity.
  - apply Z.compare_lt_iff. apply wall_lt; assumption.
  - apply Z.compare_gt_iff. apply wall_lt; try assumption.
    rewrite lex_compare_antisym, Hc. reflexivity.
Qed.

End OrderFacts.

(** X5: when start and end carry the same tzinfo object (or none), the
    duration is negative exactly when the end reads earlier than the start on
    the calendar and the clock (year, month, day, hour, minute, second,
    microsecond, in that order). *)
Theorem negative_exactly_when_end_reads_earlier event s e row :
  DTSTART event = Some s -> DTEND event = Some e ->
  valid_value s -> valid_value e ->
  same_tzinfo (normalize e) (normalize s) = true ->
  event_to_row event = Return (Some row) ->
  (r_duration row < 0 <-> earlier (normalize e) (normalize s) = true).
Proof.
  intros Hs He Hvs Hve Hsame H.
  destruct (event_to_row_row _ _ H) as (s' & e' & delta & Hs' & He' & _ & Hsub & Hd & _).
  assert (s' = s) by congruence. assert (e' = e) by congruence. subst s' e'.
  pose proof (duration_minutes_sign _ _ _ _ Hsub Hd) as Hsign.
  destruct (sub_microseconds _ _ _ Hsub) as [Hwall _]. specialize (Hwall Hsame).
  pose proof (OrderFacts.wall_compare _ _ (valid_normalize _ Hve)
                (valid_normalize _ Hvs)) as Hcmp.
  unfold earlier. rewrite <- Hcmp.
  destruct (Z.compare_spec (wall_microseconds (normalize e))
              (wall_microseconds (normalize s))); split; intros; try discriminate; lia.
Qed.

Lemma negative_exactly_when_end_reads_earlier_witness :
  -510 < 0
  <-> earlier (normalize (naive_dt 2024 1 1 9 0 0 0))
              (normalize (naive_dt 2024 1 1 17 30 0 0)) = true.
Proof.
  apply (negative_exactly_when_end_reads_earlier backwards
           (naive_dt 2024 1 1 17 30 0 0) (naive_dt 2024 1 1 9 0 0 0)
           {| r_date := "2024-01-01"; r_start := "17:30"; r_end := "09:00";
              r_summary := "Work"; r_duration := -510 |});
    try reflexivity; vm_compute; intuition discriminate.
Defined.

(** ** The loop over the entries *)

Module LoopFacts.

(** The rows already collected only sit in front of the new ones. *)
Lemma parse_events_loop_acc evs : forall acc,
  parse_events_loop evs acc
  = match parse_events_loop evs [] with
    | Return rows => Return (acc ++ rows)
    | Raise err => Raise err
    end.
Proof.
  induction evs as [| x evs IH]; intros acc.
  - cbn. rewrite app_nil_r. reflexivity.
  - cbn [parse_events_loop].
    destruct (event_to_row x) as [[r |] | err]; cbn; [| apply IH | reflexivity].
    rewrite (IH (acc ++ [r])), (IH [r]).
    destruct (parse_events_loop evs []); [rewrite <- app_assoc |]; reflexivity.
Qed.

Lemma parse_events_loop_app evs1 : forall evs2 acc,
  parse_events_loop (evs1 ++ evs2) acc
  = match parse_events_loop evs1 acc with
    | Return rows1 => parse_events_loop evs2 rows1
    | Raise err => Raise err
    end.
Proof.
  induction evs1 as [| x evs1 IH]; intros evs2 acc; [reflexivity |].
  cbn [app parse_events_loop].
  destruct (event_to_row x) as [[r |] | err]; cbn; [apply IH | apply IH | reflexivity].
Qed.

Lemma parse_events_loop_returns evs rows0 rows event :
  parse_events_loop evs rows0 = Return rows -> In event evs ->
  exists r, event_to_row event = Return r.
Proof.
  revert rows0. induction evs as [| x evs IH]; intros rows0 H Hin; [destruct Hin |].
  cbn [parse_events_loop] in H.
  destruct (event_to_row x) as [[r |] | err] eqn:Hx; cbn in H; [| | discriminate];
    (destruct Hin as [<- | Hin]; [eauto | eapply IH; eauto]).
Qed.

(** The rows of the entries found below a list of components. *)
Lemma parse_events_loop_flat_map subs : forall rss,
  Forall2 (fun sub rs => parse_events sub = Return rs) subs rss ->
  parse_events_loop (flat_map (_walk "VEVENT") subs) [] = Return (concat rss).
Proof.
  induction subs as [| sub subs IH]; intros rss H; inversion H as [| ? rs ? rss' Hsub Hrest];
    subst; [reflexivity |].
  cbn [flat_map concat]. rewrite parse_events_loop_app.
  unfold parse_events, walk in Hsub. rewrite Hsub.
  rewrite parse_events_loop_acc, (IH _ Hrest). reflexivity.
Qed.

End LoopFacts.

(** X6: the rows of a component that is not itself a VEVENT (a calendar, a
    container) are the rows of its subcomponents, one subcomponent after the
    other, at any depth of nesting. *)
Theorem rows_of_a_container_are_its_parts_rows nm s e summary subs rss :
  nm <> "VEVENT"%string ->
  Forall2 (fun sub rs => parse_events sub = Return rs) subs rss ->
  parse_events (mkComponent nm s e summary subs) = Return (concat rss).
Proof.
  intros Hnm H. unfold parse_events, walk. cbn [_walk name subcomponents].
  apply String.eqb_neq in Hnm. rewrite Hnm. cbn [app].
  apply LoopFacts.parse_events_loop_flat_map. exact H.
Qed.

Lemma rows_of_a_container_are_its_parts_rows_witness :
  parse_events (vcalendar [vcalendar [work_day; holiday]; todo; with_alarm])
  = Return (concat
      [ [ {| r_date := "2024-01-01"; r_start := "09:00"; r_end := "17:30";
             r_summary := "Work"; r_duration := 510 |} ];
        [];
        [ {| r_date := "2024-01-02"; r_start := "09:00"; r_end := "09:30";
             r_summary := "Review"; r_duration := 30 |} ] ]).
Proof.
  apply (rows_of_a_container_are_its_parts_rows "VCALENDAR" None None None
           [vcalendar [work_day; holiday]; todo; with_alarm]).
  - discriminate.
  - repeat constructor; vm_compute; reflexivity.
Defined.

(** ** The orchestrator *)

Lemma passes_filters_not_skipped event :
  passes_filters event = true -> event_to_row event <> Return None.
Proof.
  intros Hp H. pose proof Hp as Hp'. unfold passes_filters in Hp'.
  destruct (DTSTART event) as [s |] eqn:Hs; [| discriminate].
  destruct (DTEND event) as [e |] eqn:He; [| discriminate].
  rewrite (event_to_row_passes _ _ _ Hs He Hp) in H.
  destruct (duration_minutes (normalize s) (normalize e)); discriminate.
Qed.

Lemma no_rows_iff_all_skipped evs rows :
  parse_events_loop evs [] = Return rows ->
  (rows = [] <-> forall event, In event evs -> passes_filters event = false).
Proof.
  intros H. destruct (parse_events_loop_rows _ _ _ H) as (new & -> & Hnew).
  cbn [app]. split.
  - intros ->. inversion Hnew as [Hnil |]. intros event Hin.
    destruct (LoopFacts.parse_events_loop_returns _ _ _ _ H Hin) as [r Hr].
    destruct (passes_filters event) eqn:Hp; [| reflexivity]. exfalso.
    destruct r as [row |]; [| exact (passes_filters_not_skipped _ Hp Hr)].
    assert (Hy : In event (List.filter yields_row evs)).
    { apply filter_In. split; [exact Hin |]. unfold yields_row. rewrite Hr. reflexivity. }
    rewrite <- Hnil in Hy. destruct Hy.
  - intros Hall. destruct new as [| r new]; [reflexivity |]. exfalso.
    inversion Hnew as [| event ? evs' ? Hr Hrest Hf]; subst.
    assert (Hin : In event (List.filter yields_row evs)) by (rewrite <- Hf; left; reflexivity).
    apply filter_In in Hin. destruct Hin as [Hin _].
    rewrite (event_to_row_skips _ (Hall _ Hin)) in Hr. discriminate.
Qed.

Lemma all_skipped_no_rows evs :
  (forall event, In event evs -> passes_filters event = false) ->
  parse_events_loop evs [] = Return [].
Proof.
  induction evs as [| x evs IH]; intros Hall; [reflexivity |].
  cbn [parse_events_loop].
  rewrite (event_to_row_skips x (Hall x (or_introl eq_refl))). cbn.
  apply IH. intros event Hin. apply Hall. right. exact Hin.
Qed.

(** X7: [main] prints the warning, and opens no output file, exactly when no
    VEVENT of the calendar passes the two filters: a calendar without
    events, or with all-day and incomplete entries only.  The output path
    need not even be writable then. *)
Theorem main_warns_exactly_when_nothing_is_timed from_ical args w cal :
  load_calendar from_ical (ics_file args) w = Return cal ->
  ((forall event, In event (walk cal "VEVENT") -> passes_filters event = false) ->
   main from_ical args w
   = Return (print ("Warning: No events found in " +:+ ics_file args) w))
  /\ (forall rows,
        parse_events cal = Return rows ->
        (rows = []
         <-> forall event, In event (walk cal "VEVENT") ->
                           passes_filters event = false)).
Proof.
  intros Hload. split.
  - intros Hall. unfold main. rewrite Hload. cbn [mbind result_bind].
    unfold parse_events. rewrite (all_skipped_no_rows _ Hall). reflexivity.
  - intros rows Hrows. apply no_rows_iff_all_skipped. exact Hrows.
Qed.

Lemma main_warns_exactly_when_nothing_is_timed_witness :
  main (fun _ => Return (vcalendar [holiday; open_ended; todo]))
       {| ics_file := "in.ics"; output := Some "out.csv" |}
       locked_world
  = Return (print "Warning: No events found in in.ics" locked_world).
Proof.
  apply (proj1 (main_warns_exactly_when_nothing_is_timed
                  (fun _ => Return (vcalendar [holiday; open_ended; todo]))
                  {| ics_file := "in.ics"; output := Some "out.csv" |}
                  locked_world
                  (vcalendar [holiday; open_ended; todo]) eq_refl)).
  intros event Hin. vm_compute in Hin.
  destruct Hin as [<- | [<- | []]]; reflexivity.
Defined.



(** X9: a run of [main] that ends normally leaves every file other than the
    output path as it was and prints exactly one line. *)
Theorem main_touches_only_the_output from_ical args w w' :
  main from_ical args w = Return w' ->
  (forall path, path <> default default_output (output args) ->
                files w' !! path = files w !! path)
  /\ (exists line, stdout w' = stdout w ++ [line])
  /\ can_write w' = can_write w.
Proof.
  unfold main.
  destruct (load_calendar from_ical (ics_file args) w) as [cal |]; [| discriminate].
  cbn [mbind result_bind].
  destruct (parse_events cal) as [[| r rows] |]; cbn [mbind result_bind]; [| | discriminate].
  - intros [= <-]. cbn. eauto.
  - destruct (can_write w (default default_output (output args))) eqn:Hw;
      [rewrite (write_csv_ok _ _ _ Hw) | rewrite (write_csv_refused _ _ _ Hw); discriminate].
    cbn [mbind result_bind]. intros [= <-]. cbn [print files stdout can_write].
    repeat split; eauto. intros path Hne. apply lookup_insert_ne. congruence.
Qed.

Lemma main_touches_only_the_output_witness :
  (forall path, path <> default default_output None ->
                files (print "Converted 1 events to working_hours.csv"
                         (with_file "working_hours.csv"
                            (csv_text
                               [ {| r_date := "2024-01-01"; r_start := "09:00";
                                    r_end := "17:30"; r_summary := "Work";
                                    r_duration := 510 |} ]) sample_world))
                  !! path
                = files sample_world !! path)
  /\ (exists line,
        stdout (print "Converted 1 events to working_hours.csv"
                  (with_file "working_hours.csv"
                     (csv_text
                        [ {| r_date := "2024-01-01"; r_start := "09:00";
                             r_end := "17:30"; r_summary := "Work";
                             r_duration := 510 |} ]) sample_world))
        = stdout sample_world ++ [line])
  /\ can_write sample_world = can_write sample_world.
Proof.
  apply (main_touches_only_the_output (fun _ => Return (vcalendar [work_day]))
           {| ics_file := "in.ics"; output := None |} sample_world
           (print "Converted 1 events to working_hours.csv"
              (with_file "working_hours.csv"
                 (csv_text
                    [ {| r_date := "2024-01-01"; r_start := "09:00";
                         r_end := "17:30"; r_summary := "Work";
                         r_duration := 510 |} ]) sample_world))).
  vm_compute. reflexivity.
Defined.

(** ** What the file holds *)

Module FieldFacts.
Import Csv.

#[local] Arguments String.append !s1 s2 : simpl nomatch.

Lemma field_quoted_append a b :
  field_quoted (a +:+ b) = field_quoted a || field_quoted b.
Proof.
  induction a as [| c a IH]; cbn [String.append field_quoted]; [reflexivity |].
  rewrite IH, Bool.orb_assoc. reflexivity.
Qed.

Lemma uint_plain d : field_quoted (NilEmpty.string_of_uint d) = false.
Proof. induction d; cbn [NilEmpty.string_of_uint field_quoted]; auto. Qed.

(** [str(n)] holds digits and a sign only. *)
Lemma str_plain n : field_quoted (Fmt.str n) = false.
Proof.
  unfold Fmt.str, NilZero.string_of_int, NilZero.string_of_uint.
  destruct (Z.to_int n) as [d | d]; destruct d;
    try reflexivity; cbn [field_quoted]; rewrite uint_plain; reflexivity.
Qed.

Lemma two_digits_plain n : 0 <= n <= 99 -> field_quoted (two_digits n) = false.
Proof.
  intros H.
  assert (Hall : forallb (fun k => negb (field_quoted (two_digits k))) (seqZ 0 100)
                 = true) by (vm_compute; reflexivity).
  rewrite forallb_forall in Hall. apply Bool.negb_true_iff, Hall.
  apply list_elem_of_In, elem_of_seqZ. lia.
Qed.

Lemma four_digits_plain n : 0 <= n <= 9999 -> field_quoted (four_digits n) = false.
Proof.
  intros H.
  assert (Hall : forallb (fun k => negb (field_quoted (four_digits k))) (seqZ 0 10000)
                 = true) by (vm_compute; reflexivity).
  rewrite forallb_forall in Hall. apply Bool.negb_true_iff, Hall.
  apply list_elem_of_In, elem_of_seqZ. lia.
Qed.

Lemma iso_date_plain y m d :
  valid_ymd y m d -> field_quoted (iso_date y m d) = false.
Proof.
  intros (Hy & Hm & Hd). pose proof (days_in_month_le y m Hm).
  unfold iso_date. rewrite !field_quoted_append.
  rewrite four_digits_plain, !two_digits_plain by lia. reflexivity.
Qed.

Lemma hh_mm_plain h mi :
  0 <= h < 24 -> 0 <= mi < 60 -> field_quoted (hh_mm h mi) = false.
Proof.
  intros Hh Hm. unfold hh_mm. rewrite !field_quoted_append.
  rewrite !two_digits_plain by lia. reflexivity.
Qed.

Lemma field_text_plain f : field_quoted f = false -> field_text f = f.
Proof.
  intros Hq. unfold field_text, join_append. cbn [Nat.ltb Nat.leb orb].
  rewrite Hq. apply field_data_plain. exact Hq.
Qed.

Lemma str_inj n m : Fmt.str n = Fmt.str m -> n = m.
Proof.
  unfold Fmt.str. intros H. apply DecimalZ.to_int_inj.
  assert (Hok : forall z, Z.to_int z <> Decimal.Pos Decimal.Nil
                          /\ Z.to_int z <> Decimal.Neg Decimal.Nil).
  { intros [| p | p]; cbn; split; try discriminate;
      intros [= Hp]; exact (DecimalPos.Unsigned.to_uint_nonnil p Hp). }
  destruct (Hok n) as [Hn1 Hn2]. destruct (Hok m) as [Hm1 Hm2].
  pose proof (NilZero.isi _ Hn1 Hn2) as En. pose proof (NilZero.isi _ Hm1 Hm2) as Em.
  rewrite H in En. congruence.
Qed.

Lemma row_fields_inj r1 r2 : row_fields r1 = row_fields r2 -> r1 = r2.
Proof.
  destruct r1, r2. unfold row_fields, row_cells. cbn.
  intros [= -> -> -> -> H]. apply str_inj in H. subst. reflexivity.
Qed.

Lemma map_row_fields_inj rows1 : forall rows2,
  map row_fields rows1 = map row_fields rows2 -> rows1 = rows2.
Proof.
  induction rows1 as [| r rows1 IH]; intros [| r' rows2]; cbn [map];
    try discriminate; [reflexivity |].
  intros H.
  pose proof (f_equal (hd []) H) as H1. pose proof (f_equal (@tl _) H) as H2.
  cbn [hd tl] in H1, H2. apply row_fields_inj in H1. apply IH in H2. congruence.
Qed.

End FieldFacts.

(** X10: the file determines the rows: if writing two lists of rows leaves
    the same text at the output path, the two lists are the same. *)
Theorem written_file_determines_the_rows rows1 rows2 path w w1 w2 :
  write_csv rows1 path w = Return w1 ->
  write_csv rows2 path w = Return w2 ->
  files w1 !! path = files w2 !! path ->
  rows1 = rows2.
Proof.
  intros H1 H2 Heq.
  destruct (can_write w path) eqn:Hw;
    [| rewrite (write_csv_refused _ _ _ Hw) in H1; discriminate].
  rewrite (write_csv_ok rows1 _ _ Hw) in H1. rewrite (write_csv_ok rows2 _ _ Hw) in H2.
  injection H1 as <-. injection H2 as <-. cbn [files] in Heq.
  rewrite !lookup_insert_eq in Heq.
  assert (Ht : csv_text rows1 = csv_text rows2) by congruence.
  apply FieldFacts.map_row_fields_inj.
  pose proof (reader_csv_text rows1) as R1. pose proof (reader_csv_text rows2) as R2.
  rewrite Ht in R1. congruence.
Qed.

Lemma written_file_determines_the_rows_witness : [standup] = [standup].
Proof.
  apply (written_file_determines_the_rows [standup] [standup] "out.csv" empty_world
           (with_file "out.csv" (csv_text [standup]) empty_world)
           (with_file "out.csv" (csv_text [standup]) empty_world));
    vm_compute; reflexivity.
Defined.

(** X11: in the row of a valid entry only the summary can need quoting: the
    date (10 characters), the two times (5 characters each) and the duration
    are written as they are, so the line is
    [date,HH:MM,HH:MM,<summary as written>,minutes] and the line
    terminator. *)
Theorem only_the_summary_is_ever_quoted event row :
  valid_event event ->
  event_to_row event = Return (Some row) ->
  row_line row
  = r_date row +:+ "," +:+ r_start row +:+ "," +:+ r_end row +:+ ","
    +:+ field_text (r_summary row) +:+ "," +:+ Fmt.str (r_duration row)
    +:+ Csv.lineterminator
  /\ String.length (r_date row) = 10%nat
  /\ String.length (r_start row) = 5%nat
  /\ String.length (r_end row) = 5%nat.
Proof.
  intros [Hvs Hve] H.
  destruct (event_to_row_row _ _ H) as (s & e & delta & Hs & He & _ & _ & _ & Hrow).
  pose proof (valid_normalize _ (Hvs _ Hs)) as (Hymd & Hh & Hm & _).
  pose proof (valid_normalize _ (Hve _ He)) as (_ & Hh' & Hm' & _).
  rewrite (isoformat_valid (date_of (normalize s)) Hymd) in Hrow.
  rewrite !strftime_HM_valid in Hrow by assumption.
  cbn [date_of time_of d_year d_month d_day t_hour t_minute] in Hrow.
  unfold row_line. rewrite Hrow. cbn [r_date r_start r_end r_summary r_duration].
  rewrite (FieldFacts.field_text_plain _ (FieldFacts.iso_date_plain _ _ _ Hymd)).
  rewrite !(FieldFacts.field_text_plain _ (FieldFacts.hh_mm_plain _ _ Hh Hm)).
  rewrite !(FieldFacts.field_text_plain _ (FieldFacts.hh_mm_plain _ _ Hh' Hm')).
  rewrite (FieldFacts.field_text_plain _ (FieldFacts.str_plain _)).
  repeat split; reflexivity.
Qed.

Lemma only_the_summary_is_ever_quoted_witness :
  row_line {| r_date := "2024-01-01"; r_start := "09:00"; r_end := "17:30";
              r_summary := "Work"; r_duration := 510 |}
  = "2024-01-01" +:+ "," +:+ "09:00" +:+ "," +:+ "17:30" +:+ ","
    +:+ field_text "Work" +:+ "," +:+ Fmt.str 510 +:+ Csv.lineterminator
  /\ String.length "2024-01-01" = 10%nat
  /\ String.length "09:00" = 5%nat
  /\ String.length "17:30" = 5%nat.
Proof.
  apply (only_the_summary_is_ever_quoted work_day
           {| r_date := "2024-01-01"; r_start := "09:00"; r_end := "17:30";
              r_summary := "Work"; r_duration := 510 |}).
  - split; intros v Hv; vm_compute in Hv; injection Hv as <-;
      vm_compute; intuition discriminate.
  - vm_compute. reflexivity.
Defined.

(** ** Counting *)

(** X12: when extraction succeeds, there is exactly one row for each VEVENT
    that passes the two filters, so the count that [main] prints is the
    number of those entries, and never more than the number of VEVENTs. *)
Theorem one_row_per_timed_entry cal rows :
  parse_events cal = Return rows ->
  length rows = length (List.filter passes_filters (walk cal "VEVENT"))
  /\ (length rows <= length (walk cal "VEVENT"))%nat.
Proof.
  intros H. unfold parse_events in H.
  destruct (parse_events_loop_rows _ _ _ H) as (new & -> & Hnew). cbn [app].
  assert (Hsame : List.filter yields_row (walk cal "VEVENT")
                  = List.filter passes_filters (walk cal "VEVENT")).
  { apply filter_ext_in. intros event Hin.
    destruct (LoopFacts.parse_events_loop_returns _ _ _ _ H Hin) as [r Hr].
    unfold yields_row. rewrite Hr.
    destruct (passes_filters event) eqn:Hp.
    - destruct r; [reflexivity |]. exfalso. exact (passes_filters_not_skipped _ Hp Hr).
    - rewrite (event_to_row_skips _ Hp) in Hr. injection Hr as <-. reflexivity. }
  rewrite <- Hsame.
  assert (Hlen : length new = length (List.filter yields_row (walk cal "VEVENT"))).
  { clear -Hnew. induction Hnew; cbn [length]; congruence. }
  split; [exact Hlen |]. rewrite Hlen. apply List.filter_length_le.
Qed.

Lemma one_row_per_timed_entry_witness :
  length [ {| r_date := "2024-01-01"; r_start := "09:00"; r_end := "17:30";
              r_summary := "Work"; r_duration := 510 |} ]
  = length (List.filter passes_filters
              (walk (vcalendar [holiday; work_day; todo]) "VEVENT"))
  /\ (length [ {| r_date := "2024-01-01"; r_start := "09:00"; r_end := "17:30";
                  r_summary := "Work"; r_duration := 510 |} ]
      <= length (walk (vcalendar [holiday; work_day; todo]) "VEVENT"))%nat.
Proof.
  apply (one_row_per_timed_entry (vcalendar [holiday; work_day; todo])).
  vm_compute. reflexivity.
Defined.

(** ** Days follow one another *)



